(** * Highlight-Extractor: a shallow embedding of the pipeline logic

    Part I embeds the Python sources, one module per source file:
    - [Config]            : config.py (the constants the other files read);
    - [SubtitleExtractor] : subtitle_extractor.py (re-timing, SRT rendering);
    - [VideoProcessor]    : video_processor.py (resize geometry, highlight reel);
    - [Main]              : main.py (job registry, broadcaster, pipelines,
                            submission and download handlers).
    Part II states and proves the properties.

    Seconds are Python floats in the source.  They are embedded as
    rationals ([Q]); Python's [==] on numbers is [Qeq].  Where a test or an
    integer of the source depends on a rounded result (the length test of
    [create_highlight_video], the geometry of [resize_video]) the operation
    is the binary64 one, built on [round64].  The re-timing of subtitles and
    [timedelta] are kept in exact arithmetic: their timestamps are those of
    the source up to its rounding.  Every concrete input used below is a
    dyadic rational well inside the binary64 range, on which the float
    operations of the source are exact, unless the example is about
    rounding. *)

From Stdlib Require Import ZArith QArith Qround Qabs Qpower Lqa Lia.
From Stdlib Require Import List String Ascii.
From Stdlib Require DecimalString.
From stdpp Require Import base option list gmap strings.

Local Open Scope Z_scope.
Local Open Scope Q_scope.

(** * Part I: the embedding *)

(** ** Python built-ins *)

(** [a < b] on numbers, as a boolean. *)
Definition Qltb (a b : Q) : bool := negb (Qle_bool b a).

(** [max(a, b)]: Python returns the first argument unless the second is
    strictly greater. *)
Definition py_max (a b : Q) : Q := if Qltb a b then b else a.

(** [min(a, b)]: Python returns the first argument unless the second is
    strictly smaller. *)
Definition py_min (a b : Q) : Q := if Qltb b a then b else a.

(** [int(x)]: truncation towards zero. *)
Definition py_int (x : Q) : Z :=
  if Qle_bool 0 x then Qfloor x else Qceiling x.

(** [open(os.path.join(directory, name), "wb")] in a directory that exists
    and has no subdirectory (the program creates none under its upload
    directory): the call raises when [name] has a directory separator
    ([FileNotFoundError]) or a NUL character ([ValueError]).  Other causes
    of failure (a full disk, a name longer than the file system allows) are
    not modelled. *)
Definition open_raises (name : string) : bool :=
  existsb (fun c => Ascii.eqb c "/" || Ascii.eqb c "000")%bool
    (list_ascii_of_string name).

(** [s.endswith(suffix)] *)
Definition endswith (s suffix : string) : bool :=
  String.prefix (String.rev suffix) (String.rev s).

(** [s.endswith((a, b, ...))]: true when one of the suffixes matches. *)
Definition endswith_any (s : string) (suffixes : list string) : bool :=
  existsb (endswith s) suffixes.

(** [os.path.join(a, b)] on POSIX paths. *)
Definition path_join (a b : string) : string :=
  if String.prefix "/" b then b
  else if (String.eqb a "" || endswith a "/")%bool then a +:+ b
  else a +:+ "/" +:+ b.

(** Exceptions.  [HTTPException] is FastAPI's; [Exception] stands for every
    other exception class the code can meet (all are caught by
    [except Exception]). *)
Inductive Exn :=
| HTTPException (status_code : Z) (detail : string)
| Exception (msg : string).

Inductive Result (A : Type) :=
| Ok (a : A)
| Raise (e : Exn).
Arguments Ok {A} a.
Arguments Raise {A} e.

(** What the [open] of [open_raises] raises: [ValueError] for a NUL
    character (it is found when the path is converted, before the file
    system is asked), [FileNotFoundError] for a directory separator. *)
Definition open_error (name : string) : Exn :=
  if existsb (fun c => Ascii.eqb c "000") (list_ascii_of_string name)
  then Exception "ValueError"
  else Exception "FileNotFoundError".

(** ** Data shared by the source files *)

(** A subtitle dict.  The key ['confidence'] is read with
    [sub.get('confidence', 0)], so it may be absent. *)
Record Subtitle := mkSubtitle {
  sub_id : Z;
  sub_start : Q;
  sub_end : Q;
  sub_text : string;
  sub_confidence : option Q
}.

(** A highlight dict as parsed from the model's JSON answer. *)
Record Highlight := mkHighlight {
  hl_start : Q;
  hl_end : Q;
  hl_reason : string;
  hl_score : Q
}.

(** What a video file shows: its frame size (width, height) and the ranges of
    its source's timeline it plays, in order.  A camera original of duration
    [D] plays [[(0, D)]]. *)
Record Video := mkVideo {
  v_size : Z * Z;
  v_cuts : list (Q * Q)
}.

(** [clip.duration] *)
Definition duration_of (cuts : list (Q * Q)) : Q :=
  fold_right (fun c acc => (c.2 - c.1) + acc) 0 cuts.

(** ** config.py *)

Module Config.

Definition UPLOAD_DIR : string := "uploads".
Definition OUTPUT_DIR : string := "outputs".

(** [TARGET_ASPECT_RATIO = 9/16] *)
Definition TARGET_ASPECT_RATIO : Q := 9 # 16.
(** [TARGET_RESOLUTION = (1080, 1920)] *)
Definition TARGET_RESOLUTION : Z * Z := (1080, 1920)%Z.
Definition MIN_HIGHLIGHT_DURATION : Z := 2%Z.
Definition MAX_VIDEO_SIZE_MB : Z := 500%Z.

End Config.

(** ** subtitle_extractor.py *)

Module SubtitleExtractor.

(** The offset computed at the top of the outer loop body:
    [filtered[-1]['end']] when [filtered] is non-empty, else [0]. *)
Definition running_offset (filtered : list Subtitle) : Q :=
  match last filtered with
  | Some s => sub_end s
  | None => 0
  end.

(** [sub['end'] > h_start and sub['start'] < h_end] *)
Definition overlaps (h_start h_end : Q) (sub : Subtitle) : bool :=
  Qltb h_start (sub_end sub) && Qltb (sub_start sub) h_end.

(** The dict appended to [filtered] for an overlapping subtitle.  The two
    subtractions and the addition are exact here; the source rounds each of
    them to binary64. *)
Definition retimed (h_start h_end offset : Q) (subtitle_id : Z)
    (sub : Subtitle) : Subtitle :=
  let new_start := py_max 0 (sub_start sub - h_start) + offset in
  let new_end := py_min (sub_end sub - h_start) (h_end - h_start) + offset in
  {| sub_id := subtitle_id;
     sub_start := new_start;
     sub_end := new_end;
     sub_text := sub_text sub;
     sub_confidence := Some (default 0 (sub_confidence sub)) |}.

(** The inner [for sub in subtitles] loop; the loop state is the pair
    ([filtered], [subtitle_id]). *)
Fixpoint inner_loop (h_start h_end offset : Q) (subtitles : list Subtitle)
    (st : list Subtitle * Z) : list Subtitle * Z :=
  match subtitles with
  | [] => st
  | sub :: rest =>
      if overlaps h_start h_end sub then
        inner_loop h_start h_end offset rest
          (st.1 ++ [retimed h_start h_end offset st.2 sub], (st.2 + 1)%Z)
      else inner_loop h_start h_end offset rest st
  end.

(** One iteration of the outer [for highlight in highlights] loop: the
    re-timing of one highlight window. *)
Definition retime (subtitles : list Subtitle) (st : list Subtitle * Z)
    (highlight : Highlight) : list Subtitle * Z :=
  let h_start := hl_start highlight in
  let h_end := hl_end highlight in
  let offset := running_offset st.1 in
  inner_loop h_start h_end offset subtitles st.

Definition filter_subtitles_for_highlights (subtitles : list Subtitle)
    (highlights : list Highlight) : list Subtitle :=
  (fold_left (retime subtitles) highlights ([], 0%Z)).1.

(** Rounding to the nearest integer, ties to even: how [timedelta] turns a
    fractional number of microseconds into its integer field. *)
Definition round_half_even (x : Q) : Z :=
  let f := Qfloor x in
  let r := x - inject_Z f in
  if Qltb r (1 # 2) then f
  else if Qltb (1 # 2) r then (f + 1)%Z
  else if Z.even f then f else (f + 1)%Z.

(** [timedelta(seconds=s)], normalised as Python does:
    [0 <= seconds < 86400], [0 <= microseconds < 10**6].  Two things are
    left out: Python raises [OverflowError] beyond 999999999 days ([days] is
    unbounded here), and it rounds the product of the fraction and [10**6]
    to binary64 before it rounds to a whole microsecond (the product is
    exact here). *)
Record timedelta := mkTimedelta {
  td_days : Z;
  td_seconds : Z;
  td_microseconds : Z
}.

Definition timedelta_of_seconds (seconds : Q) : timedelta :=
  let us := round_half_even (seconds * 1000000) in
  let total_seconds := (us / 1000000)%Z in
  {| td_days := (total_seconds / 86400)%Z;
     td_seconds := (total_seconds mod 86400)%Z;
     td_microseconds := (us mod 1000000)%Z |}.

(** [str(n)] for an integer. *)
Definition str_int (n : Z) : string :=
  DecimalString.NilZero.string_of_int (Z.to_int n).

(** ['0' * n] *)
Fixpoint zeros (n : nat) : string :=
  match n with
  | O => ""
  | S n' => "0" +:+ zeros n'
  end.

(** [f"{n:0{width}d}"]: sign-aware zero padding to a minimal width. *)
Definition format_d (width : nat) (n : Z) : string :=
  let digits := str_int (Z.abs n) in
  let sign := if (n <? 0)%Z then "-" else "" in
  sign +:+ zeros (width - String.length sign - String.length digits)
    +:+ digits.

Definition format_time (seconds : Q) : string :=
  let td := timedelta_of_seconds seconds in
  let hours := (td_seconds td / 3600)%Z in
  let minutes := ((td_seconds td mod 3600) / 60)%Z in
  let secs := (td_seconds td mod 60)%Z in
  let milliseconds := (td_microseconds td / 1000)%Z in
  format_d 2 hours +:+ ":" +:+ format_d 2 minutes +:+ ":"
    +:+ format_d 2 secs +:+ "," +:+ format_d 3 milliseconds.

(** The newline character. *)
Definition nl : string := String "010"%char "".

(** What one iteration of the loop of [generate_srt] appends. *)
Definition srt_block (idx : Z) (sub : Subtitle) : string :=
  (str_int idx +:+ nl)
    +:+ (format_time (sub_start sub) +:+ " --> "
           +:+ format_time (sub_end sub) +:+ nl)
    +:+ (sub_text sub +:+ nl +:+ nl).

(** [for idx, sub in enumerate(subtitles, 1): srt_content += ...] *)
Fixpoint srt_loop (idx : Z) (subtitles : list Subtitle)
    (srt_content : string) : string :=
  match subtitles with
  | [] => srt_content
  | sub :: rest => srt_loop (idx + 1)%Z rest (srt_content +:+ srt_block idx sub)
  end.

Definition generate_srt (subtitles : list Subtitle) : string :=
  srt_loop 1%Z subtitles "".

End SubtitleExtractor.

(** ** Python floats *)

(** A Python [float] is an IEEE 754 binary64 number: an arithmetic
    operation returns the exact result rounded to the nearest binary64
    number, ties to even.  [round64] is that rounding on the rationals, for
    results in the finite range (overflow to infinity and NaN are not
    modelled); subnormal results are covered.  The operands are binary64
    numbers, or integers below [2^53], on which Python computes the same
    value. *)

(** [floor(log2 |x|)] for [x <> 0]. *)
Definition ilog2 (x : Q) : Z :=
  let k := (Z.log2 (Z.abs (Qnum x)) - Z.log2 (Z.pos (Qden x)))%Z in
  if Qle_bool (2 ^ k) (Qabs x) then k else (k - 1)%Z.

(** The nearest multiple of the unit in the last place of [x]. *)
Definition round64 (x : Q) : Q :=
  let ulp := 2 ^ Z.max (ilog2 x - 52) (-1074) in
  inject_Z (SubtitleExtractor.round_half_even (x / ulp)) * ulp.

(** [a - b], [a * b] and [a / b] on floats. *)
Definition float_sub (a b : Q) : Q := round64 (a - b).
Definition float_mul (a b : Q) : Q := round64 (a * b).
Definition float_div (a b : Q) : Q := round64 (a / b).

(** ** video_processor.py *)

Module VideoProcessor.

(** An opened [VideoFileClip]: [video.size] and [video.duration]. *)
Record VideoFileClip := mkClip {
  clip_size : Z * Z;
  clip_duration : Q
}.

(** The numbers [resize_video] computes before it writes the file. *)
Record ResizeGeometry := mkGeometry {
  g_scale : Q;
  g_new_size : Z * Z;
  g_x1 : Z; g_y1 : Z; g_x2 : Z; g_y2 : Z
}.

(** The body of [resize_video] up to the [crop] call.  A zero input dimension
    makes the division raise. *)
Definition resize_geometry (target_resolution : Z * Z) (size : Z * Z)
    : Result ResizeGeometry :=
  let '(input_w, input_h) := size in
  let '(target_h, target_w) := target_resolution in
  if ((input_w =? 0) || (input_h =? 0))%Z then
    Raise (Exception "division by zero")
  else
    let scale_w := float_div (inject_Z target_w) (inject_Z input_w) in
    let scale_h := float_div (inject_Z target_h) (inject_Z input_h) in
    let scale := py_max scale_w scale_h in
    let new_w := py_int (float_mul (inject_Z input_w) scale) in
    let new_h := py_int (float_mul (inject_Z input_h) scale) in
    let x_center := ((new_w - target_w) / 2)%Z in
    let y_center := ((new_h - target_h) / 2)%Z in
    Ok {| g_scale := scale;
          g_new_size := (new_w, new_h);
          g_x1 := x_center;
          g_y1 := y_center;
          g_x2 := (x_center + target_w)%Z;
          g_y2 := (y_center + target_h)%Z |}.

(** The size of the box of [resized.crop(x1, y1, x2, y2)]: (width, height).
    It is the frame size of the crop when the box lies inside the resized
    frame. *)
Definition crop_size (g : ResizeGeometry) : Z * Z :=
  ((g_x2 g - g_x1 g)%Z, (g_y2 g - g_y1 g)%Z).

(** The [for highlight in highlights] loop of [create_highlight_video]; a
    [video.subclip(start, end)] is recorded as the pair [(start, end)]. *)
Fixpoint clips_loop (video_duration : Q) (highlights : list Highlight)
    (clips : list (Q * Q)) : list (Q * Q) :=
  match highlights with
  | [] => clips
  | highlight :: rest =>
      let start := py_max 0 (hl_start highlight) in
      let end_ := py_min video_duration (hl_end highlight) in
      if Qltb (1 # 2) (float_sub end_ start) then
        clips_loop video_duration rest (clips ++ [(start, end_)])
      else clips_loop video_duration rest clips
  end.

Definition highlight_clips (video_duration : Q) (highlights : list Highlight)
    : list (Q * Q) :=
  clips_loop video_duration highlights [].

End VideoProcessor.

(** ** highlight_detector.py *)

Module HighlightDetector.

(** [s.find(c)] for a one-character [c]: the index of the first occurrence,
    [-1] if there is none. *)
Fixpoint find (c : ascii) (s : string) : Z :=
  match s with
  | EmptyString => (-1)%Z
  | String a rest =>
      if Ascii.eqb a c then 0%Z
      else let i := find c rest in if (i <? 0)%Z then (-1)%Z else (i + 1)%Z
  end.

(** [s.rfind(c)]: the index of the last occurrence, [-1] if there is none. *)
Fixpoint rfind (c : ascii) (s : string) : Z :=
  match s with
  | EmptyString => (-1)%Z
  | String a rest =>
      let i := rfind c rest in
      if (0 <=? i)%Z then (i + 1)%Z
      else if Ascii.eqb a c then 0%Z else (-1)%Z
  end.

(** [s[start:stop]]: a negative index counts from the end, and both indices
    are clipped to [0 .. len(s)]. *)
Definition slice (s : string) (start stop : Z) : string :=
  let n := Z.of_nat (String.length s) in
  let clip i := if (i <? 0)%Z then Z.max 0 (i + n) else Z.min i n in
  let a := clip start in
  let b := clip stop in
  if (a <? b)%Z then substring (Z.to_nat a) (Z.to_nat (b - a)) s
  else EmptyString.

(** The text [detect_highlights] hands to [json.loads]. *)
Definition json_str (content : string) : string :=
  let json_start := find "[" content in
  let json_end := (rfind "]" content + 1)%Z in
  slice content json_start json_end.

End HighlightDetector.

(** ** main.py *)

Module Main.

(** The [metadata] dict written to [metadata.json] and stored in the job. *)
Record Metadata := mkMetadata {
  md_job_id : string;
  md_filename : string;
  md_highlights : list Highlight;
  md_subtitles : list Subtitle;
  md_num_highlights : nat;
  md_num_subtitles : nat;
  md_processed_at : string
}.

(** A job dict.  Every dict literal of the source has the keys ['status'] and
    ['message']; the other keys are absent from some of them. *)
Record Job := mkJob {
  status : string;
  progress : option Z;
  message : string;
  created_at : option string;
  output_dir : option string;
  metadata : option Metadata
}.

(** A WebSocket connection object, by identity. *)
Definition WebSocket := nat.

(** What a path of the file system holds: media (with the video it decodes
    to, if any), text, or a JSON metadata record. *)
Inductive File :=
| MediaFile (video : option Video)
| TextFile (content : string)
| JsonFile (m : Metadata).

(** A task handed to FastAPI's [BackgroundTasks]. *)
Inductive Task :=
| TaskVideo (job_id video_path filename : string)
| TaskUrl (job_id url : string).

(** Ghost log of what happens to the job registry: every store into
    [jobs[job_id]] (with the record as it is right after the store), and every
    call of [manager.broadcast] (with the record it is given).  The calls of
    [manager.broadcast] are the suspension points of a pipeline. *)
Inductive Event :=
| Write (job_id : string) (j : Job)
| Publish (job_id : string) (j : Job).

(** The process state: the two global dicts [jobs] and
    [manager.active_connections], the file system, the queue of background
    tasks, and two ghost logs ([delivered]: the messages each connection
    received, in order). *)
Record World := mkWorld {
  jobs : gmap string Job;
  active_connections : gmap string (list WebSocket);
  files : gmap string File;
  tasks : list Task;
  history : list Event;
  delivered : list (WebSocket * Job)
}.

(** The collaborators outside the repository: clock, exception printing,
    connection liveness, and the outcome of each external tool. *)
Record Env := mkEnv {
  now : string;
  str_exn : Exn -> string;
  send_fails : WebSocket -> bool;
  yt_dlp : Result Video;
  ffmpeg_extract_audio : Result unit;
  whisper_transcribe : Result (list Subtitle);
  gpt_detect : Result (list Highlight);
  write_videofile : string -> Result unit;
  ffmpeg_add_subtitles : Result unit
}.

(** *** A state-and-exception monad for the handlers and pipelines *)

Definition M (A : Type) : Type := World -> Result A * World.

Definition ret {A} (a : A) : M A := fun w => (Ok a, w).

Definition bind {A B} (m : M A) (k : A -> M B) : M B :=
  fun w =>
    match m w with
    | (Ok a, w') => k a w'
    | (Raise e, w') => (Raise e, w')
    end.

Definition raise {A} (e : Exn) : M A := fun w => (Raise e, w).

Definition lift {A} (r : Result A) : M A := fun w => (r, w).

(** [try: body / except Exception as e: handler(e)] *)
Definition try_except {A} (body : M A) (handler : Exn -> M A) : M A :=
  fun w =>
    match body w with
    | (Ok a, w') => (Ok a, w')
    | (Raise e, w') => handler e w'
    end.

(** [try: body / except HTTPException: raise / except Exception as e: ...] *)
Definition try_except_reraising_http {A} (body : M A) (handler : Exn -> M A)
    : M A :=
  try_except body
    (fun e => match e with
              | HTTPException _ _ => raise e
              | Exception _ => handler e
              end).

Notation "'do' x <- m ; k" := (bind m (fun x => k))
  (at level 10, x name, m at level 100, k at level 200,
   format "'[v' 'do'  x  <-  m ; '/' k ']'").
Notation "'exec' m ; k" := (bind m (fun _ => k))
  (at level 10, m at level 100, k at level 200,
   format "'[v' 'exec'  m ; '/' k ']'").

Definition set_jobs (f : gmap string Job -> gmap string Job) (w : World)
    : World :=
  mkWorld (f (jobs w)) (active_connections w) (files w) (tasks w)
    (history w) (delivered w).

Definition set_files (f : gmap string File -> gmap string File) (w : World)
    : World :=
  mkWorld (jobs w) (active_connections w) (f (files w)) (tasks w)
    (history w) (delivered w).

Definition log (e : Event) (w : World) : World :=
  mkWorld (jobs w) (active_connections w) (files w) (tasks w)
    (history w ++ [e]) (delivered w).

Definition deliver (ws : WebSocket) (j : Job) (w : World) : World :=
  mkWorld (jobs w) (active_connections w) (files w) (tasks w)
    (history w) (delivered w ++ [(ws, j)]).

(** [background_tasks.add_task(...)] *)
Definition add_task (t : Task) : M unit :=
  fun w =>
    (Ok tt,
     mkWorld (jobs w) (active_connections w) (files w) (tasks w ++ [t])
       (history w) (delivered w)).

(** [jobs[job_id] = record] *)
Definition jobs_store (job_id : string) (record : Job) : M unit :=
  fun w => (Ok tt, log (Write job_id record) (set_jobs <[job_id := record]> w)).

(** [jobs[job_id]]: a missing key raises [KeyError]. *)
Definition jobs_get (job_id : string) : M Job :=
  fun w =>
    match jobs w !! job_id with
    | Some j => (Ok j, w)
    | None => (Raise (Exception "KeyError"), w)
    end.

(** [jobs[job_id][key] = value], the update of one key written as a function
    on the record. *)
Definition jobs_setitem (job_id : string) (upd : Job -> Job) : M unit :=
  do j <- jobs_get job_id;
  jobs_store job_id (upd j).

Definition with_status (s : string) (j : Job) : Job :=
  mkJob s (progress j) (message j) (created_at j) (output_dir j) (metadata j).
Definition with_progress (p : Z) (j : Job) : Job :=
  mkJob (status j) (Some p) (message j) (created_at j) (output_dir j)
    (metadata j).
Definition with_message (m : string) (j : Job) : Job :=
  mkJob (status j) (progress j) m (created_at j) (output_dir j) (metadata j).
Definition with_output_dir (d : string) (j : Job) : Job :=
  mkJob (status j) (progress j) (message j) (created_at j) (Some d)
    (metadata j).
Definition with_metadata (md : Metadata) (j : Job) : Job :=
  mkJob (status j) (progress j) (message j) (created_at j) (output_dir j)
    (Some md).

(** [open(path, "w").write(...)] and the files the external tools produce. *)
Definition write_file (path : string) (f : File) : M unit :=
  fun w => (Ok tt, set_files <[path := f]> w).

(** [os.path.exists(path)] *)
Definition path_exists (path : string) : M bool :=
  fun w => (Ok (bool_decide (is_Some (files w !! path))), w).

(** *** class ConnectionManager *)

(** [await websocket.accept()] followed by the registration. *)
Definition connect (websocket : WebSocket) (job_id : string) : M unit :=
  fun w =>
    let conns := default [] (active_connections w !! job_id) in
    (Ok tt,
     mkWorld (jobs w) (<[job_id := conns ++ [websocket]]> (active_connections w))
       (files w) (tasks w) (history w) (delivered w)).

(** [l.remove(x)]: removes the first occurrence; [None] stands for
    [ValueError]. *)
Fixpoint list_remove (x : WebSocket) (l : list WebSocket)
    : option (list WebSocket) :=
  match l with
  | [] => None
  | y :: l' => if Nat.eqb x y then Some l'
               else option_map (cons y) (list_remove x l')
  end.

Definition disconnect (job_id : string) (websocket : WebSocket) : M unit :=
  fun w =>
    match active_connections w !! job_id with
    | Some conns =>
        match list_remove websocket conns with
        | Some conns' =>
            (Ok tt,
             mkWorld (jobs w) (<[job_id := conns']> (active_connections w))
               (files w) (tasks w) (history w) (delivered w))
        | None => (Raise (Exception "ValueError"), w)
        end
    | None => (Ok tt, w)
    end.

(** [await connection.send_json(message)]: raises on a closed connection. *)
Definition send_json (env : Env) (connection : WebSocket) (message : Job)
    : M unit :=
  fun w =>
    if send_fails env connection
    then (Raise (Exception "WebSocketDisconnect"), w)
    else (Ok tt, deliver connection message w).

(** [for connection in ...: try: await connection.send_json(message)
    except: pass] *)
Fixpoint broadcast_loop (env : Env) (connections : list WebSocket)
    (message : Job) : M unit :=
  match connections with
  | [] => ret tt
  | connection :: rest =>
      exec try_except (send_json env connection message) (fun _ => ret tt);
      broadcast_loop env rest message
  end.

Definition broadcast (env : Env) (job_id : string) (message : Job) : M unit :=
  exec (fun w => (Ok tt, log (Publish job_id message) w));
  do registry <- (fun w => (Ok (active_connections w), w));
  match registry !! job_id with
  | Some connections => broadcast_loop env connections message
  | None => ret tt
  end.

(** *** The adapters, as far as the pipeline sees them *)

(** [VideoFileClip(path)] *)
Definition open_clip (path : string) : M VideoProcessor.VideoFileClip :=
  fun w =>
    match files w !! path with
    | Some (MediaFile (Some v)) =>
        (Ok (VideoProcessor.mkClip (v_size v) (duration_of (v_cuts v))), w)
    | _ => (Raise (Exception "OSError"), w)
    end.

(** [VideoProcessor.extract_audio]: one ffmpeg run. *)
Definition extract_audio (env : Env) (video_path output_audio_path : string)
    : M string :=
  exec lift (ffmpeg_extract_audio env);
  exec write_file output_audio_path (MediaFile None);
  ret output_audio_path.

(** [VideoProcessor.resize_video]; its [except] clause logs and re-raises. *)
Definition resize_video (env : Env) (target_resolution : Z * Z)
    (video_path output_path : string) : M string :=
  do video <- open_clip video_path;
  do g <- lift (VideoProcessor.resize_geometry target_resolution
                  (VideoProcessor.clip_size video));
  exec lift (write_videofile env output_path);
  exec write_file output_path
         (MediaFile (Some (mkVideo (VideoProcessor.crop_size g)
                             [(0, VideoProcessor.clip_duration video)])));
  ret output_path.

(** [VideoProcessor.add_subtitles]: one ffmpeg run over the input video (in
    the pipeline the subtitle file already lies next to the video, so the
    copy is skipped). *)
Definition add_subtitles (env : Env) (video_path srt_path output_path : string)
    : M string :=
  do video <- (fun w =>
                 match files w !! video_path with
                 | Some (MediaFile (Some v)) => (Ok v, w)
                 | _ => (Raise (Exception "CalledProcessError"), w)
                 end);
  exec lift (ffmpeg_add_subtitles env);
  exec write_file output_path (MediaFile (Some video));
  ret output_path.

(** [VideoProcessor.create_highlight_video]; its [except] clause logs and
    re-raises. *)
Definition create_highlight_video (env : Env) (video_path : string)
    (highlights : list Highlight) (output_path : string) : M string :=
  do video <- open_clip video_path;
  let clips :=
    VideoProcessor.highlight_clips (VideoProcessor.clip_duration video)
      highlights in
  exec match clips with
       | [] => ret tt
       | _ :: _ =>
           exec lift (write_videofile env output_path);
           write_file output_path
             (MediaFile (Some (mkVideo (VideoProcessor.clip_size video) clips)))
       end;
  ret output_path.

(** [SubtitleExtractor.extract_subtitles]: opens the audio file and calls
    the transcription service. *)
Definition extract_subtitles (env : Env) (audio_path : string)
    : M (list Subtitle) :=
  do present <- path_exists audio_path;
  if present : bool then lift (whisper_transcribe env)
  else raise (Exception "FileNotFoundError").

(** [HighlightDetector.detect_highlights] *)
Definition detect_highlights (env : Env) (subtitles : list Subtitle)
    (min_duration : Z) : M (list Highlight) :=
  lift (gpt_detect env).

(** [download_video_from_url]: one yt-dlp run. *)
Definition download_video_from_url (env : Env) (url output_path : string)
    : M string :=
  do v <- lift (yt_dlp env);
  exec write_file output_path (MediaFile (Some v));
  ret output_path.

(** *** The pipelines *)

(** [update_job] *)
Definition update_job (env : Env) (job_id status : string) (progress : Z)
    (message : string) : M unit :=
  exec jobs_setitem job_id (with_status status);
  exec jobs_setitem job_id (with_progress (Z.min progress 100));
  exec jobs_setitem job_id (with_message message);
  do snapshot <- jobs_get job_id;
  broadcast env job_id snapshot.

(** The [except Exception as e] clause shared by both pipelines. *)
Definition pipeline_failed (env : Env) (job_id : string) (e : Exn) : M unit :=
  exec jobs_setitem job_id (with_status "error");
  exec jobs_setitem job_id (with_message (str_exn env e));
  do snapshot <- jobs_get job_id;
  broadcast env job_id snapshot.

(** [process_video_async].  Directories are not part of the file-system
    model, so [os.makedirs(job_output_dir, exist_ok=True)] has no effect
    here; plain [open(...).write(...)] calls are taken to succeed. *)
Definition process_video_async (env : Env) (job_id video_path filename : string)
    (start_progress : Z) : M unit :=
  try_except
    (let job_output_dir := path_join Config.OUTPUT_DIR job_id in
     exec update_job env job_id "processing" (start_progress + 20)
            "Extracting audio...";
     let audio_path := path_join job_output_dir "audio.mp3" in
     exec extract_audio env video_path audio_path;
     exec update_job env job_id "processing" (start_progress + 35)
            "Extracting subtitles using Whisper...";
     do subtitles <- extract_subtitles env audio_path;
     exec update_job env job_id "processing" (start_progress + 50)
            "Detecting highlights with GPT-4...";
     do highlights <- detect_highlights env subtitles
                        Config.MIN_HIGHLIGHT_DURATION;
     exec update_job env job_id "processing" (start_progress + 60)
            "Resizing video to 9:16 vertical format...";
     let resized_path := path_join job_output_dir "resized.mp4" in
     exec resize_video env Config.TARGET_RESOLUTION video_path resized_path;
     exec update_job env job_id "processing" (start_progress + 70)
            "Embedding subtitles into video...";
     let srt_path := path_join job_output_dir "subtitles.srt" in
     let srt_content := SubtitleExtractor.generate_srt subtitles in
     exec write_file srt_path (TextFile srt_content);
     let final_path := path_join job_output_dir "final_with_subtitles.mp4" in
     exec add_subtitles env resized_path srt_path final_path;
     exec update_job env job_id "processing" (start_progress + 80)
            "Creating highlight reel...";
     let highlight_path := path_join job_output_dir "highlights.mp4" in
     exec create_highlight_video env resized_path highlights highlight_path;
     exec update_job env job_id "processing" 95 "Finalizing results...";
     let metadata :=
       {| md_job_id := job_id;
          md_filename := filename;
          md_highlights := highlights;
          md_subtitles := subtitles;
          md_num_highlights := length highlights;
          md_num_subtitles := length subtitles;
          md_processed_at := now env |} in
     exec write_file (path_join job_output_dir "metadata.json")
            (JsonFile metadata);
     exec jobs_setitem job_id (with_status "completed");
     exec jobs_setitem job_id (with_progress 100);
     exec jobs_setitem job_id
            (with_message "Processing completed successfully!");
     exec jobs_setitem job_id (with_output_dir job_output_dir);
     exec jobs_setitem job_id (with_metadata metadata);
     do snapshot <- jobs_get job_id;
     broadcast env job_id snapshot)
    (pipeline_failed env job_id).

(** [process_url_async] *)
Definition process_url_async (env : Env) (job_id url : string) : M unit :=
  try_except
    (exec update_job env job_id "processing" 5 "Downloading video from URL...";
     let upload_path := path_join Config.UPLOAD_DIR (job_id +:+ "_video.mp4") in
     exec download_video_from_url env url upload_path;
     exec update_job env job_id "processing" 15
            "Video downloaded, starting processing...";
     process_video_async env job_id upload_path "video.mp4" 15)
    (pipeline_failed env job_id).

(** How a queued background task is run. *)
Definition run_task (env : Env) (t : Task) : M unit :=
  match t with
  | TaskVideo job_id video_path filename =>
      process_video_async env job_id video_path filename 0
  | TaskUrl job_id url => process_url_async env job_id url
  end.

(** *** The HTTP handlers *)

(** An [UploadFile]: its name, and its payload by byte length and by the
    video it decodes to (if any). *)
Record UploadFile := mkUpload {
  filename : string;
  content_length : Z;
  content_video : option Video
}.

(** The JSON body of an accepted submission. *)
Record Accepted := mkAccepted {
  acc_job_id : string;
  acc_status : string;
  acc_message : string
}.

(** [process_video]; [job_id] is the value of [str(uuid.uuid4())] and
    [background_tasks] tells whether the parameter is not [None].  The
    upload is written to [uploads/<job_id>_<filename>]; a UUID has no
    directory separator, so the [open] of that path is decided by the
    client's file name. *)
Definition process_video (env : Env) (job_id : string) (file : UploadFile)
    (background_tasks : bool) : M Accepted :=
  try_except
    (exec (if negb (endswith_any (filename file)
                      [".mp4"; ".avi"; ".mov"; ".mkv"])
           then raise (HTTPException 400 "Invalid video format")
           else ret tt);
     let upload_path :=
       path_join Config.UPLOAD_DIR (job_id +:+ "_" +:+ filename file) in
     exec (if open_raises (filename file)
           then raise (open_error (filename file))
           else write_file upload_path (MediaFile (content_video file)));
     let file_size_mb := inject_Z (content_length file) / (1024 * 1024) in
     exec (if Qltb (inject_Z Config.MAX_VIDEO_SIZE_MB) file_size_mb
           then raise (HTTPException 413
                         ("File too large (max "
                            +:+ SubtitleExtractor.str_int
                                  Config.MAX_VIDEO_SIZE_MB +:+ "MB)"))
           else ret tt);
     exec jobs_store job_id
            (mkJob "processing" (Some 0%Z)
               "Uploaded successfully, starting processing..."
               (Some (now env)) None None);
     exec (if background_tasks
           then add_task (TaskVideo job_id upload_path (filename file))
           else ret tt);
     ret (mkAccepted job_id "processing" "Video processing started"))
    (fun e =>
       exec jobs_store job_id
              (mkJob "error" None (str_exn env e) None None None);
       raise (HTTPException 500 (str_exn env e))).

(** [process_video_url] *)
Definition process_video_url (env : Env) (job_id url : string)
    (background_tasks : bool) : M Accepted :=
  try_except_reraising_http
    (exec (if negb (String.prefix "http://" url || String.prefix "https://" url)
           then raise (HTTPException 400 "Invalid URL format")
           else ret tt);
     exec jobs_store job_id
            (mkJob "processing" (Some 0%Z) "Downloading video from URL..."
               (Some (now env)) None None);
     exec (if background_tasks
           then add_task (TaskUrl job_id url)
           else ret tt);
     ret (mkAccepted job_id "processing"
            "Video download and processing started"))
    (fun e =>
       exec jobs_store job_id
              (mkJob "error" None (str_exn env e) None None None);
       raise (HTTPException 500 (str_exn env e))).


(** The dicts [file_mapping] and [media_types] of [download_file]. *)
Definition file_mapping : list (string * string) :=
  [("final", "final_with_subtitles.mp4"); ("highlights", "highlights.mp4");
   ("subtitles", "subtitles.srt"); ("metadata", "metadata.json")].
Definition media_types : list (string * string) :=
  [("final", "video/mp4"); ("highlights", "video/mp4");
   ("subtitles", "text/plain"); ("metadata", "application/json")].

(** [d[key]] / [key in d] on a literal dict. *)
Fixpoint dict_get (d : list (string * string)) (key : string) : option string :=
  match d with
  | [] => None
  | (k, v) :: d' => if String.eqb key k then Some v else dict_get d' key
  end.

(** [FileResponse(path, media_type=..., filename=...)] *)
Record FileResponse := mkFileResponse {
  fr_path : string;
  fr_media_type : string;
  fr_filename : string
}.

(** [download_file] *)
Definition download_file (job_id file_type : string) : M FileResponse :=
  do registry <- (fun w => (Ok (jobs w), w));
  match registry !! job_id with
  | None => raise (HTTPException 404 "Job not found")
  | Some _ =>
      let job_output_dir := path_join Config.OUTPUT_DIR job_id in
      match dict_get file_mapping file_type, dict_get media_types file_type with
      | Some name, Some media_type =>
          let file_path := path_join job_output_dir name in
          do present <- path_exists file_path;
          if present : bool
          then ret (mkFileResponse file_path media_type name)
          else raise (HTTPException 404 "File not found")
      | _, _ => raise (HTTPException 400 "Invalid file type")
      end
  end.

End Main.

(** ** Vocabulary of the properties *)

(** [sum(h_end_i - h_start_i)] over the highlight windows. *)
Definition sum_durations (highlights : list Highlight) : Q :=
  fold_right (fun h acc => (hl_end h - hl_start h) + acc) 0 highlights.

(** Two subtitles carry the same timestamps and text (numbers compared as
    Python's [==] does). *)
Definition same_content (a b : Subtitle) : Prop :=
  sub_start a == sub_start b /\ sub_end a == sub_end b /\
  sub_text a = sub_text b.

(** Two subtitles are equal as far as id, timestamps and text go. *)
Definition same_segment (a b : Subtitle) : Prop :=
  sub_id a = sub_id b /\ same_content a b.

(** The ids are the (0-based) sequence positions, as the transcription
    service and the re-timing loop number them. *)
Definition ids_are_positions (subtitles : list Subtitle) : Prop :=
  forall (i : nat) (s : Subtitle),
    subtitles !! i = Some s -> sub_id s = Z.of_nat i.

(** A subtitle lies inside [[0, D]] and is not empty. *)
Definition within (D : Q) (s : Subtitle) : Prop :=
  0 <= sub_start s /\ sub_start s < sub_end s /\ sub_end s <= D.

(** The clamped range of a highlight candidate, and the test that keeps it. *)
Definition clamped (D : Q) (h : Highlight) : Q * Q :=
  (py_max 0 (hl_start h), py_min D (hl_end h)).
Definition kept (D : Q) (h : Highlight) : bool :=
  Qltb (1 # 2) (float_sub (clamped D h).2 (clamped D h).1).

(** The transcript and the windows of the worked examples. *)
Definition example_subtitles : list Subtitle :=
  [mkSubtitle 0 0 2 "hi" (Some 0);
   mkSubtitle 1 3 5 "key moment" (Some 0);
   mkSubtitle 2 6 10 "bye" (Some 0)].
Definition example_windows : list Highlight :=
  [mkHighlight 2 6 "context" 80; mkHighlight 3 5 "key moment" 90].

(** What a publish delivers: the message, to every connection of the list
    whose [send_json] does not raise, in list order. *)
Definition deliveries (env : Main.Env) (connections : list Main.WebSocket)
    (message : Main.Job) : list (Main.WebSocket * Main.Job) :=
  map (fun c => (c, message))
    (List.filter (fun c => negb (Main.send_fails env c)) connections).

(** The observers registered for a job ([[]] when the job has no entry). *)
Definition observers (w : Main.World) (job_id : string)
    : list Main.WebSocket :=
  default [] (Main.active_connections w !! job_id).

(** A terminal job status. *)
Definition terminal (j : Main.Job) : Prop :=
  Main.status j = "completed" \/ Main.status j = "error".

(** An environment in which every tool succeeds, the transcript is the
    example one, no highlight is found, and connection 1 is closed. *)
Definition example_env : Main.Env :=
  Main.mkEnv "2024-01-01T00:00:00"
    (fun e => match e with
              | HTTPException c d => d
              | Exception m => m
              end)
    (fun ws => Nat.eqb ws 1)
    (Ok (mkVideo (1920, 1080)%Z [(0, 10)]))
    (Ok tt) (Ok example_subtitles) (Ok []) (fun _ => Ok tt) (Ok tt).

(** A fresh process with two observers, 1 and 2, connected to job ["J"]. *)
Definition example_world : Main.World :=
  Main.mkWorld ∅ {["J" := [1%nat; 2%nat]]} ∅ [] [] [].

Definition example_job : Main.Job :=
  Main.mkJob "processing" (Some 0%Z) "Uploaded successfully" None None None.

(** A ten-second 1920x1080 upload, and a 600 MB one. *)
Definition example_upload : Main.UploadFile :=
  Main.mkUpload "clip.mp4" 1048576 (Some (mkVideo (1920, 1080)%Z [(0, 10)])).
Definition oversized_upload : Main.UploadFile :=
  Main.mkUpload "clip.mp4" 629145600
    (Some (mkVideo (1920, 1080)%Z [(0, 10)])).

(** A candidate lasting exactly half a second, and the candidate from 0.3
    to 0.8: the binary64 numbers nearest to 0.3 and 0.8, whose difference
    is a little more than one half. *)
Definition half_second_candidate : Highlight :=
  mkHighlight 0 (1 # 2) "short" 50.
Definition rounded_candidate : Highlight :=
  mkHighlight (5404319552844595 # 18014398509481984)
    (3602879701896397 # 4503599627370496) "rounded" 50.

(** A transcript with a pause inside the first of two windows. *)
Definition paused_subtitles : list Subtitle :=
  [mkSubtitle 0 0 2 "hi" None; mkSubtitle 1 6 10 "bye" None].
Definition paused_windows : list Highlight :=
  [mkHighlight 0 3 "greeting" 80; mkHighlight 6 10 "farewell" 90].

(** A transcript whose ids are not its sequence positions. *)
Definition renumbered_subtitles : list Subtitle :=
  [mkSubtitle 7 0 2 "a" None; mkSubtitle 9 3 5 "b" None].

(** The exception raised by the size check. *)
Definition too_large : Exn :=
  HTTPException 413 "File too large (max 500MB)".

(** *** Reasoning about the handlers and pipelines *)

(** Weakest precondition of a computation of the monad: [Q] holds of the
    result and final state of [m] run from [w]. *)
Definition wp {A} (m : Main.M A) (Q : Result A -> Main.World -> Prop)
    (w : Main.World) : Prop :=
  Q (m w).1 (m w).2.

(** [w'] differs from [w] in the file system at most. *)
Definition same_registry (w w' : Main.World) : Prop :=
  Main.jobs w' = Main.jobs w /\
  Main.active_connections w' = Main.active_connections w /\
  Main.tasks w' = Main.tasks w /\
  Main.history w' = Main.history w /\
  Main.delivered w' = Main.delivered w.

(** The records stored, and the snapshots published, by a list of events. *)
Definition written (evs : list Main.Event) : list Main.Job :=
  omap (fun e => match e with
                 | Main.Write _ j => Some j
                 | Main.Publish _ _ => None
                 end) evs.
Definition published (evs : list Main.Event) : list Main.Job :=
  omap (fun e => match e with
                 | Main.Write _ _ => None
                 | Main.Publish _ j => Some j
                 end) evs.

(** Starting from progress [p], every record of the list has an integer
    progress that is at least the previous one and at most 100. *)
Fixpoint progress_never_decreases (p : Z) (records : list Main.Job) : Prop :=
  match records with
  | [] => True
  | j :: rest =>
      exists q : Z,
        Main.progress j = Some q /\ (p <= q <= 100)%Z /\
        progress_never_decreases q rest
  end.

(** A record with status ["completed"] has progress 100. *)
Definition completed_at_100 (j : Main.Job) : Prop :=
  Main.status j = "completed" -> Main.progress j = Some 100%Z.

(** Once a terminal snapshot has been published, nothing follows: it is the
    last event, and it is [final]. *)
Fixpoint absorbing (final : Main.Job) (evs : list Main.Event) : Prop :=
  match evs with
  | [] => True
  | Main.Publish _ j :: rest =>
      (terminal j -> rest = [] /\ j = final) /\ absorbing final rest
  | Main.Write _ _ :: rest => absorbing final rest
  end.

(** What one run of [process_video_async] appends to the history, when it
    starts with progress [p] and ends with the record [final]. *)
Definition pipeline_trace (p : Z) (final : Main.Job)
    (evs : list Main.Event) : Prop :=
  progress_never_decreases p (written evs) /\
  Forall completed_at_100 (published evs) /\
  absorbing final evs /\
  terminal final /\ completed_at_100 final.

(** The record after [update_job]. *)
Definition updated (status : string) (progress : Z) (message : string)
    (j : Main.Job) : Main.Job :=
  Main.with_message message
    (Main.with_progress (Z.min progress 100) (Main.with_status status j)).

(** The answer to, and the state after, the submission of the example
    upload as job ["J"]. *)
Definition example_accepted : Main.Accepted :=
  Main.mkAccepted "J" "processing" "Video processing started".
Definition example_accepted_world : Main.World :=
  (Main.process_video example_env "J" example_upload true example_world).2.


(** The suffixes [process_video] accepts, and the names that end with one
    of them. *)
Definition video_extensions : list string := [".mp4"; ".avi"; ".mov"; ".mkv"].
Definition has_video_extension (name : string) : Prop :=
  exists stem ext, ext ∈ video_extensions /\ name = stem +:+ ext.

(** The record [process_video] creates, the one both submission handlers
    store on failure, and the path an upload is written to. *)
Definition uploaded_record (env : Main.Env) : Main.Job :=
  Main.mkJob "processing" (Some 0%Z)
    "Uploaded successfully, starting processing..."
    (Some (Main.now env)) None None.
Definition error_record (env : Main.Env) (e : Exn) : Main.Job :=
  Main.mkJob "error" None (Main.str_exn env e) None None None.

(** The record a pipeline leaves on success: status, progress 100, the
    output directory and a metadata dict whose counts are the lengths of its
    lists.  [j] is the record the pipeline started from. *)
Definition completed_record (job_id filename : string)
    (j final : Main.Job) : Prop :=
  Main.status final = "completed" /\
  Main.progress final = Some 100%Z /\
  Main.message final = "Processing completed successfully!" /\
  Main.output_dir final = Some (path_join Config.OUTPUT_DIR job_id) /\
  Main.created_at final = Main.created_at j /\
  exists md,
    Main.metadata final = Some md /\
    Main.md_job_id md = job_id /\
    Main.md_filename md = filename /\
    Main.md_num_highlights md = length (Main.md_highlights md) /\
    Main.md_num_subtitles md = length (Main.md_subtitles md).

(** The record a pipeline leaves on failure: status ["error"], the text of
    the exception as message, the progress of the last step reached (at most
    95), and the other keys as they were. *)
Definition failed_record (env : Main.Env) (j final : Main.Job) : Prop :=
  Main.status final = "error" /\
  (exists e, Main.message final = Main.str_exn env e) /\
  (exists p, Main.progress final = Some p /\ (p <= 95)%Z) /\
  Main.output_dir final = Main.output_dir j /\
  Main.metadata final = Main.metadata j /\
  Main.created_at final = Main.created_at j.

(** The six paths a job's pipeline may write. *)
Definition artifact_paths (job_id : string) : list string :=
  map (path_join (path_join Config.OUTPUT_DIR job_id))
    ["audio.mp3"; "resized.mp4"; "subtitles.srt"; "final_with_subtitles.mp4";
     "highlights.mp4"; "metadata.json"].

(** Every path outside [paths] holds in [w'] what it held in [w]. *)
Definition untouched_outside (paths : list string) (w w' : Main.World)
    : Prop :=
  forall p, p ∉ paths -> Main.files w' !! p = Main.files w !! p.

(** *** What a pipeline run may touch *)

(** [m] keeps the relation [R] between the state it starts from and the
    state it ends in, whatever it returns. *)
Definition preserves {A} (R : Main.World -> Main.World -> Prop)
    (m : Main.M A) : Prop :=
  forall w, R w (m w).2.

(** What a run for [job_id] is confined to: the records of the other jobs,
    the observer lists and the task queue are as before, the files outside
    [paths] hold what they held, and the new deliveries went to observers of
    [job_id] only. *)
Definition confined_to (job_id : string) (paths : list string)
    (w w' : Main.World) : Prop :=
  (forall other, other <> job_id ->
     Main.jobs w' !! other = Main.jobs w !! other) /\
  Main.active_connections w' = Main.active_connections w /\
  Main.tasks w' = Main.tasks w /\
  untouched_outside paths w w' /\
  exists ds,
    Main.delivered w' = Main.delivered w ++ ds /\
    Forall (fun d => d.1 ∈ observers w job_id) ds.

(** The path [process_url_async] downloads to. *)
Definition url_upload_path (job_id : string) : string :=
  path_join Config.UPLOAD_DIR (job_id +:+ "_video.mp4").



Definition failing_download_env : Main.Env :=
  Main.mkEnv "2024-01-01T00:00:00"
    (fun e => match e with
              | HTTPException c d => d
              | Exception m => m
              end)
    (fun ws => Nat.eqb ws 1)
    (Raise (Exception "Failed to download video: unsupported URL"))
    (Ok tt) (Ok example_subtitles) (Ok []) (fun _ => Ok tt) (Ok tt).

(** The character [c] occurs in [s]. *)
Definition occurs (c : ascii) (s : string) : Prop :=
  In c (list_ascii_of_string s).




(** * Part II: properties *)

(** ** Numbers *)

Section Numbers.

Lemma Qltb_lt (a b : Q) : Qltb a b = true <-> a < b.
Proof.
  unfold Qltb. rewrite negb_true_iff.
  destruct (Qle_bool b a) eqn:E.
  - apply Qle_bool_iff in E. split; [discriminate | intros H; lra].
  - split; [intros _ | reflexivity].
    destruct (Qlt_le_dec a b) as [H | H]; [exact H |].
    apply Qle_bool_iff in H. congruence.
Qed.

Lemma Qltb_ge (a b : Q) : Qltb a b = false <-> b <= a.
Proof.
  destruct (Qltb a b) eqn:E.
  - apply Qltb_lt in E. split; [discriminate | intros H; lra].
  - split; [intros _ | reflexivity].
    destruct (Qlt_le_dec a b) as [H | H]; [| exact H].
    apply Qltb_lt in H. congruence.
Qed.

Lemma py_max_spec (a b : Q) :
  (a < b /\ py_max a b = b) \/ (b <= a /\ py_max a b = a).
Proof.
  unfold py_max. destruct (Qltb a b) eqn:E.
  - left. apply Qltb_lt in E. auto.
  - right. apply Qltb_ge in E. auto.
Qed.

Lemma py_min_spec (a b : Q) :
  (b < a /\ py_min a b = b) \/ (a <= b /\ py_min a b = a).
Proof.
  unfold py_min. destruct (Qltb b a) eqn:E.
  - left. apply Qltb_lt in E. auto.
  - right. apply Qltb_ge in E. auto.
Qed.

Lemma py_min_le_r (a b : Q) : py_min a b <= b.
Proof. destruct (py_min_spec a b) as [[H ->] | [H ->]]; lra. Qed.

Lemma py_min_le_l (a b : Q) : py_min a b <= a.
Proof. destruct (py_min_spec a b) as [[H ->] | [H ->]]; lra. Qed.

Lemma py_max_ge_l (a b : Q) : a <= py_max a b.
Proof. destruct (py_max_spec a b) as [[H ->] | [H ->]]; lra. Qed.

End Numbers.

(** ** Binary64 rounding *)

Section Binary64.

(** Rounding to the nearest integer never passes an integer bound. *)
Lemma round_half_even_le (y : Q) (N : Z) :
  y <= inject_Z N -> (SubtitleExtractor.round_half_even y <= N)%Z.
Proof.
  intros Hy. unfold SubtitleExtractor.round_half_even.
  pose proof (Qfloor_le y) as Hf.
  assert (Hfl : (Qfloor y <= N)%Z).
  { rewrite Zle_Qle. lra. }
  destruct (Qltb (y - inject_Z (Qfloor y)) (1 # 2)) eqn:E1; [exact Hfl |].
  apply Qltb_ge in E1.
  assert (Hlt : (Qfloor y < N)%Z).
  { rewrite Zlt_Qlt. lra. }
  destruct (Qltb (1 # 2) (y - inject_Z (Qfloor y))); [lia |].
  destruct (Z.even (Qfloor y)); lia.
Qed.

Lemma pow2_pos (q : Z) : 0 < 2 ^ q.
Proof. by apply Qpower_0_lt. Qed.

Lemma ilog2_half (x : Q) : 0 < x -> x <= 1 # 2 -> (ilog2 x <= -1)%Z.
Proof.
  destruct x as [n d]. unfold Qlt, Qle. cbn [Qnum Qden]. intros Hpos Hle.
  assert (Hk : (Z.log2 (Z.abs n) - Z.log2 (Z.pos d) <= -1)%Z).
  { rewrite Z.abs_eq by lia.
    assert (H2 : (Z.log2 (2 * n) <= Z.log2 (Z.pos d))%Z)
      by (apply Z.log2_le_mono; lia).
    rewrite Z.log2_double in H2 by lia. lia. }
  unfold ilog2. cbn [Qnum Qden].
  destruct (Qle_bool _ _); lia.
Qed.

(** One half is a binary64 number: a result that is at most one half is
    rounded to at most one half. *)
Lemma round64_le_half (x : Q) : x <= 1 # 2 -> round64 x <= 1 # 2.
Proof.
  intros Hx. unfold round64. cbv zeta.
  set (q := Z.max (ilog2 x - 52) (-1074)).
  pose proof (pow2_pos q) as Hq.
  destruct (Qlt_le_dec 0 x) as [Hpos | Hneg].
  - assert (Hq53 : (q <= -53)%Z).
    { pose proof (ilog2_half x Hpos Hx). unfold q. lia. }
    assert (Hhalf : inject_Z (2 ^ (-1 - q)) * 2 ^ q == 1 # 2).
    { rewrite Zpower_Qpower by lia.
      change (inject_Z 2) with 2.
      rewrite <- Qpower_plus by discriminate.
      replace (-1 - q + q)%Z with (-1)%Z by lia. reflexivity. }
    assert (Hr : (SubtitleExtractor.round_half_even (x / 2 ^ q)
                  <= 2 ^ (-1 - q))%Z).
    { apply round_half_even_le. apply Qle_shift_div_r; [exact Hq |].
      rewrite Hhalf. exact Hx. }
    rewrite Zle_Qle in Hr.
    rewrite <- Hhalf. apply Qmult_le_compat_r; [exact Hr | lra].
  - assert (Hr : (SubtitleExtractor.round_half_even (x / 2 ^ q) <= 0)%Z).
    { apply round_half_even_le. apply Qle_shift_div_r; [exact Hq |].
      change (inject_Z 0) with 0. lra. }
    rewrite Zle_Qle in Hr. change (inject_Z 0) with 0 in Hr.
    assert (inject_Z (SubtitleExtractor.round_half_even (x / 2 ^ q)) * 2 ^ q
            <= 0 * 2 ^ q)
      by (apply Qmult_le_compat_r; [exact Hr | lra]).
    lra.
Qed.

(** A float difference above one half comes from an exact difference above
    one half. *)
Lemma float_sub_above_half (a b : Q) :
  1 # 2 < float_sub a b -> 1 # 2 < a - b.
Proof.
  intros H. destruct (Qlt_le_dec (1 # 2) (a - b)) as [Hlt | Hle]; [exact Hlt |].
  apply round64_le_half in Hle. unfold float_sub in H. lra.
Qed.

End Binary64.

(** ** Re-timing of subtitles ([filter_subtitles_for_highlights]) *)

Section RetimeIdentity.

Import SubtitleExtractor.

(** When every subtitle overlaps the window, the inner loop appends one
    re-timed copy per subtitle, numbered from the current id. *)
Lemma inner_loop_all (h_start h_end offset : Q) (subs : list Subtitle) :
  forall (filtered : list Subtitle) (subtitle_id : Z),
    Forall (fun s => overlaps h_start h_end s = true) subs ->
    inner_loop h_start h_end offset subs (filtered, subtitle_id) =
    (filtered ++
       imap (fun i s =>
               retimed h_start h_end offset (subtitle_id + Z.of_nat i)%Z s)
         subs,
     (subtitle_id + Z.of_nat (length subs))%Z).
Proof.
  induction subs as [| sub rest IH]; intros filtered subtitle_id Hall.
  - simpl. by rewrite app_nil_r, Z.add_0_r.
  - inversion Hall as [| ? ? Hsub Hrest]; subst.
    cbn [inner_loop]. rewrite Hsub. cbn [fst snd].
    rewrite (IH _ _ Hrest). cbn [imap length].
    rewrite <- app_assoc. cbn [app].
    f_equal; [| lia].
    f_equal. rewrite Z.add_0_r. f_equal.
    apply imap_ext. intros i s _. cbn. f_equal. lia.
Qed.

Lemma within_overlaps (D : Q) (s : Subtitle) :
  within D s -> overlaps 0 D s = true.
Proof.
  intros (H0 & Hlt & HD). unfold overlaps.
  apply andb_true_iff. split; apply Qltb_lt; lra.
Qed.

Lemma retimed_full_window (D : Q) (subtitle_id : Z) (s : Subtitle) :
  within D s -> same_content s (retimed 0 D 0 subtitle_id s).
Proof.
  intros (H0 & Hlt & HD). unfold same_content, retimed. cbn.
  destruct (py_max_spec 0 (sub_start s - 0)) as [[_ ->] | [Hle ->]];
  destruct (py_min_spec (sub_end s - 0) (D - 0)) as [[Hm ->] | [_ ->]];
    repeat split; lra.
Qed.

End RetimeIdentity.

(** C1, on the code.  The offset of a window is the end of the last subtitle
    retained so far ([filtered[-1]['end']]), not the sum of the spans of the
    windows before it.  Transcript: "hi" at [[0, 2]] and "bye" at
    [[6, 10]]; windows [[0, 3)] and [[6, 10)] of a ten-second video.  The
    reel plays the ranges (0, 3) and (6, 10), so its second clip starts at
    reel time 3, and the windows last 3 + 4 = 7 seconds; but "bye" is
    re-timed to [[2, 6]], one second early, and the final running offset is
    6, not 7. *)
Theorem retime_offset_lags_behind_reel :
  VideoProcessor.highlight_clips 10 paused_windows = [(0, 3); (6, 10)] /\
  sum_durations paused_windows == 7 /\
  map (fun s => (sub_text s, sub_start s, sub_end s))
    (SubtitleExtractor.filter_subtitles_for_highlights paused_subtitles
       paused_windows)
  = [("hi", 0, 2); ("bye", 2, 6)] /\
  SubtitleExtractor.running_offset
    (SubtitleExtractor.filter_subtitles_for_highlights paused_subtitles
       paused_windows) == 6 /\
  ~ (SubtitleExtractor.running_offset
       (SubtitleExtractor.filter_subtitles_for_highlights paused_subtitles
          paused_windows)
     == sum_durations paused_windows).
Proof.
  split; [vm_compute; reflexivity |].
  split; [vm_compute; reflexivity |].
  split; [vm_compute; reflexivity |].
  split; [vm_compute; reflexivity |].
  intros H. vm_compute in H. discriminate.
Qed.

(** C9, as amended.  With the single window [[0, D)] and every subtitle
    inside [[0, D]] with [end > start], the re-timing returns one subtitle
    per input subtitle, in order, with the same start, end and text, and
    with the ids renumbered by position from 0; the output is the input, ids
    included, exactly when the input ids are the sequence positions. *)
Theorem retime_full_window_identity (D : Q) (reason : string) (score : Q)
    (subtitles : list Subtitle)
    (Hin : Forall (within D) subtitles) :
  let out :=
    SubtitleExtractor.filter_subtitles_for_highlights subtitles
      [mkHighlight 0 D reason score] in
  Forall2 same_content subtitles out /\
  ids_are_positions out /\
  (Forall2 same_segment subtitles out <-> ids_are_positions subtitles).
Proof.
  assert (Hout :
    SubtitleExtractor.filter_subtitles_for_highlights subtitles
      [mkHighlight 0 D reason score] =
    imap (fun i s => SubtitleExtractor.retimed 0 D 0 (0 + Z.of_nat i)%Z s)
      subtitles).
  { unfold SubtitleExtractor.filter_subtitles_for_highlights.
    cbn [fold_left]. unfold SubtitleExtractor.retime.
    cbn [hl_start hl_end fst]. unfold SubtitleExtractor.running_offset.
    cbn [last].
    rewrite inner_loop_all
      by (eapply Forall_impl; [exact Hin | apply within_overlaps]).
    reflexivity. }
  intros out. subst out. rewrite Hout. clear Hout.
  assert (Hcontent : Forall2 same_content subtitles
            (imap (fun i s =>
                     SubtitleExtractor.retimed 0 D 0 (0 + Z.of_nat i)%Z s)
               subtitles)).
  { apply Forall2_same_length_lookup_2; [by rewrite length_imap |].
    intros i s s' Hs Hs'. rewrite list_lookup_imap, Hs in Hs'.
    cbn in Hs'. inversion Hs'; subst.
    apply retimed_full_window.
    rewrite Forall_forall in Hin. apply Hin.
    eapply list_elem_of_lookup_2; eauto. }
  assert (Hids : ids_are_positions
            (imap (fun i s =>
                     SubtitleExtractor.retimed 0 D 0 (0 + Z.of_nat i)%Z s)
               subtitles)).
  { intros i s Hs. rewrite list_lookup_imap in Hs.
    destruct (subtitles !! i); cbn in Hs; inversion Hs; subst. cbn. lia. }
  split; [exact Hcontent |]. split; [exact Hids |].
  split.
  - intros Hsame i s Hs.
    destruct (Forall2_lookup_l _ _ _ _ _ Hsame Hs) as (s' & Hs' & Hid & _).
    rewrite Hid. exact (Hids i s' Hs').
  - intros Hpos.
    apply Forall2_same_length_lookup_2;
      [by eapply Forall2_length |].
    intros i s s' Hs Hs'. split.
    + rewrite (Hpos i s Hs), (Hids i s' Hs'). reflexivity.
    + eapply Forall2_lookup_lr; eauto.
Qed.

Lemma retime_full_window_identity_witness :
  Forall2 same_segment example_subtitles
    (SubtitleExtractor.filter_subtitles_for_highlights example_subtitles
       [mkHighlight 0 10 "all" 0]).
Proof.
  apply (retime_full_window_identity 10 "all" 0 example_subtitles).
  - repeat constructor; vm_compute; discriminate.
  - intros i s Hs.
    destruct i as [| [| [| i]]]; cbn in Hs; inversion Hs; reflexivity.
Defined.

(** C9, as stated, fails: the two subtitles with ids 7 and 9 lie inside
    [[0, 10]] with [end > start], and the single window [[0, 10)] returns
    them with ids 0 and 1, not unchanged. *)
Lemma retime_full_window_renumbers_ids :
  Forall (within 10) renumbered_subtitles /\
  map sub_id renumbered_subtitles = [7; 9]%Z /\
  map sub_id
    (SubtitleExtractor.filter_subtitles_for_highlights renumbered_subtitles
       [mkHighlight 0 10 "all" 0]) = [0; 1]%Z /\
  ~ Forall2 same_segment renumbered_subtitles
      (SubtitleExtractor.filter_subtitles_for_highlights renumbered_subtitles
         [mkHighlight 0 10 "all" 0]).
Proof.
  split; [repeat constructor; vm_compute; discriminate |].
  split; [reflexivity |]. split; [vm_compute; reflexivity |].
  intros H. apply Forall2_cons_1 in H as [[Hid _] _].
  vm_compute in Hid. discriminate.
Qed.

(** ** Highlight reel ([create_highlight_video]) *)

Section HighlightReel.

Import VideoProcessor.

Variable D : Q.

(** The loop appends, in candidate order, the clamped range of every
    candidate that passes the length test. *)
Lemma clips_loop_spec (highlights : list Highlight) :
  forall clips : list (Q * Q),
    clips_loop D highlights clips =
    clips ++ map (clamped D) (List.filter (kept D) highlights).
Proof.
  induction highlights as [| h rest IH]; intros clips; cbn [clips_loop].
  - cbn. by rewrite app_nil_r.
  - cbn [List.filter].
    change (Qltb (1 # 2)
              (float_sub (py_min D (hl_end h)) (py_max 0 (hl_start h))))
      with (kept D h).
    destruct (kept D h).
    + rewrite IH, <- app_assoc. reflexivity.
    + apply IH.
Qed.

Lemma kept_iff (h : Highlight) :
  kept D h = true <-> 1 # 2 < float_sub (clamped D h).2 (clamped D h).1.
Proof. unfold kept. apply Qltb_lt. Qed.

Lemma kept_longer (h : Highlight) :
  kept D h = true -> 1 # 2 < (clamped D h).2 - (clamped D h).1.
Proof. intros H. apply float_sub_above_half. by apply kept_iff. Qed.

Lemma clamped_bounds (h : Highlight) :
  0 <= (clamped D h).1 /\ (clamped D h).2 <= D.
Proof.
  unfold clamped. cbn [fst snd]. split.
  - apply py_max_ge_l.
  - apply py_min_le_l.
Qed.

End HighlightReel.

(** C8, as amended.  The clips handed to the concatenation are, in candidate
    order, the ranges [(max(0, start), min(D, end))] of exactly those
    candidates for which the difference [end - start] of the clamped range,
    as the float subtraction computes it, is strictly greater than 0.5;
    every retained clip lies inside [[0, D]] and is strictly longer than 0.5
    seconds. *)
Theorem highlight_reel_assembly (D : Q) (highlights : list Highlight) :
  VideoProcessor.highlight_clips D highlights =
    map (clamped D) (List.filter (kept D) highlights) /\
  (forall h,
     kept D h = true
     <-> 1 # 2 < float_sub (clamped D h).2 (clamped D h).1) /\
  Forall (fun c => 0 <= c.1 /\ c.2 <= D /\ 1 # 2 < c.2 - c.1)
    (VideoProcessor.highlight_clips D highlights).
Proof.
  assert (Heq : VideoProcessor.highlight_clips D highlights =
                map (clamped D) (List.filter (kept D) highlights)).
  { unfold VideoProcessor.highlight_clips. by rewrite clips_loop_spec. }
  split; [exact Heq |]. split; [apply kept_iff |].
  rewrite Heq. apply Forall_forall. intros c Hc.
  apply list_elem_of_fmap in Hc as (h & -> & Hh).
  apply list_elem_of_In, filter_In in Hh as [_ Hk].
  destruct (clamped_bounds D h). apply kept_longer in Hk. auto.
Qed.

(** C8, as stated, fails: a candidate whose clamped range lasts exactly 0.5
    seconds is not shorter than 0.5 seconds, and it is dropped.  So is the
    candidate from 0.3 to 0.8: its two binary64 numbers are more than 0.5
    apart, and their float difference is 0.5. *)
Lemma half_second_clip_is_dropped :
  ~ ((clamped 10 half_second_candidate).2
       - (clamped 10 half_second_candidate).1 < 1 # 2) /\
  VideoProcessor.highlight_clips 10 [half_second_candidate] = [] /\
  1 # 2 < (clamped 10 rounded_candidate).2
            - (clamped 10 rounded_candidate).1 /\
  VideoProcessor.highlight_clips 10 [rounded_candidate] = [].
Proof.
  split; [intros H; vm_compute in H; discriminate |].
  split; [vm_compute; reflexivity |].
  split; [vm_compute; reflexivity | vm_compute; reflexivity].
Qed.

(** ** Resize geometry ([resize_video]) *)

(** C2, on the code.  With the configured [TARGET_RESOLUTION = (1080, 1920)]
    the first component is unpacked as the target height and the second as
    the target width: for every input of non-zero size the scale factor is
    [max(1920 / w, 1080 / h)] (float divisions) and the cropped frame is
    1920 wide by 1080 tall, a landscape frame, not the vertical 1080 by 1920
    one. *)
Theorem resize_video_crops_to_landscape (w h : Z) :
  match VideoProcessor.resize_geometry Config.TARGET_RESOLUTION (w, h) with
  | Ok g =>
      VideoProcessor.g_scale g
        = py_max (float_div (inject_Z 1920) (inject_Z w))
            (float_div (inject_Z 1080) (inject_Z h)) /\
      VideoProcessor.crop_size g = (1920, 1080)%Z /\
      VideoProcessor.crop_size g <> (1080, 1920)%Z
  | Raise _ => w = 0%Z \/ h = 0%Z
  end.
Proof.
  unfold VideoProcessor.resize_geometry, Config.TARGET_RESOLUTION.
  destruct (w =? 0)%Z eqn:Ew; [left; lia |].
  destruct (h =? 0)%Z eqn:Eh; [right; lia |].
  cbn [orb]. unfold VideoProcessor.crop_size.
  cbn [VideoProcessor.g_scale VideoProcessor.g_x1 VideoProcessor.g_x2
       VideoProcessor.g_y1 VideoProcessor.g_y2].
  split; [reflexivity |].
  match goal with
  | |- (?a, ?b) = _ /\ _ =>
      assert (Ha : a = 1920%Z) by lia; assert (Hb : b = 1080%Z) by lia;
      rewrite Ha, Hb
  end.
  split; [reflexivity | discriminate].
Qed.

(** ** SRT rendering ([format_time], [generate_srt]) *)

Section Srt.

Import SubtitleExtractor.

Lemma append_assoc (a b c : string) : (a +:+ b) +:+ c = a +:+ (b +:+ c).
Proof.
  induction a as [| x a IH]; [reflexivity |].
  change (String x ((a +:+ b) +:+ c) = String x (a +:+ (b +:+ c))).
  by rewrite IH.
Qed.

Lemma append_nil_r (a : string) : a +:+ "" = a.
Proof.
  induction a as [| x a IH]; [reflexivity |].
  change (String x (a +:+ "") = String x a). by rewrite IH.
Qed.

(** [generate_srt] emits one block per subtitle, in list order, numbered
    from 1. *)
Lemma srt_loop_blocks (subs : list Subtitle) :
  forall (idx : Z) (acc : string),
    srt_loop idx subs acc =
    acc +:+ fold_right String.append ""
              (imap (fun i s => srt_block (idx + Z.of_nat i) s) subs).
Proof.
  induction subs as [| sub rest IH]; intros idx acc; cbn [srt_loop imap].
  - cbn. by rewrite append_nil_r.
  - rewrite IH. cbn [fold_right]. rewrite append_assoc, Z.add_0_r.
    do 3 f_equal. apply imap_ext. intros i s _. cbn. f_equal. lia.
Qed.

Lemma generate_srt_blocks (subs : list Subtitle) :
  generate_srt subs =
  fold_right String.append ""
    (imap (fun i s => srt_block (1 + Z.of_nat i) s) subs).
Proof. unfold generate_srt. by rewrite srt_loop_blocks. Qed.

End Srt.

(** C7, on the code.  [format_time] reads the hour from [td.seconds], which
    never reaches one day: 90000 seconds (25 hours) render with hour field
    01, and so does the block of a subtitle starting there. *)
Theorem format_time_wraps_at_24_hours :
  SubtitleExtractor.format_time 90000 = "01:00:00,000" /\
  SubtitleExtractor.format_time 90000 = SubtitleExtractor.format_time 3600 /\
  SubtitleExtractor.generate_srt [mkSubtitle 0 90000 90001 "late" None] =
    "1" +:+ SubtitleExtractor.nl
      +:+ "01:00:00,000 --> 01:00:01,000" +:+ SubtitleExtractor.nl
      +:+ "late" +:+ SubtitleExtractor.nl +:+ SubtitleExtractor.nl.
Proof. repeat split; vm_compute; reflexivity. Qed.

(** ** The broadcaster ([ConnectionManager.broadcast]) *)

Section Broadcast.

Import Main.

Variable env : Env.

Lemma broadcast_loop_run (connections : list WebSocket) (message : Job) :
  forall w : World,
    broadcast_loop env connections message w =
    (Ok tt,
     mkWorld (jobs w) (active_connections w) (files w) (tasks w) (history w)
       (delivered w ++ deliveries env connections message)).
Proof.
  induction connections as [| c rest IH]; intros w.
  - cbn. unfold ret. rewrite app_nil_r. by destruct w.
  - cbn [broadcast_loop]. unfold bind, try_except, send_json, deliveries.
    cbn [List.filter].
    destruct (send_fails env c); cbn [negb]; unfold ret; rewrite IH.
    + reflexivity.
    + cbn. by rewrite <- app_assoc.
Qed.

Lemma broadcast_run (job_id : string) (message : Job) (w : World) :
  broadcast env job_id message w =
  (Ok tt,
   mkWorld (jobs w) (active_connections w) (files w) (tasks w)
     (history w ++ [Publish job_id message])
     (delivered w ++ deliveries env (observers w job_id) message)).
Proof.
  unfold broadcast, bind, observers. cbn.
  destruct (active_connections w !! job_id) as [conns |]; cbn.
  - by rewrite broadcast_loop_run.
  - unfold ret, deliveries. cbn. by rewrite app_nil_r.
Qed.

End Broadcast.

(** C3, as amended.  A publish never raises, leaves the connection registry
    as it is (an observer whose delivery fails stays registered), and
    delivers the snapshot, in registration order, to every registered
    observer whose delivery does not fail. *)
Theorem broadcast_is_best_effort (env : Main.Env) (job_id : string)
    (message : Main.Job) (w : Main.World) :
  exists w' : Main.World,
    Main.broadcast env job_id message w = (Ok tt, w') /\
    Main.active_connections w' = Main.active_connections w /\
    Main.delivered w' =
      Main.delivered w ++ deliveries env (observers w job_id) message /\
    (forall c, c ∈ observers w job_id -> Main.send_fails env c = false ->
               (c, message) ∈ Main.delivered w').
Proof.
  eexists. split; [apply broadcast_run |]. cbn.
  split; [reflexivity |]. split; [reflexivity |].
  intros c Hc Halive. apply elem_of_app. right.
  unfold deliveries. apply list_elem_of_fmap. exists c. split; [done |].
  apply list_elem_of_In, filter_In. split.
  - by apply list_elem_of_In.
  - by rewrite Halive.
Qed.

(** C3, as stated, fails: with observers 1 and 2 registered and observer 1
    disconnected, the publish reaches observer 2 and raises nothing, but
    observer 1 is still in the registry afterwards. *)
Lemma failed_observer_stays_registered :
  Main.send_fails example_env 1%nat = true /\
  (Main.broadcast example_env "J" example_job example_world).1 = Ok tt /\
  Main.delivered
    (Main.broadcast example_env "J" example_job example_world).2
    = [(2%nat, example_job)] /\
  1%nat ∈
    observers (Main.broadcast example_env "J" example_job example_world).2 "J".
Proof.
  rewrite broadcast_run.
  split; [reflexivity |]. split; [reflexivity |]. split; [reflexivity |].
  vm_compute. apply list_elem_of_here.
Qed.

(** ** Upload submission ([process_video]) *)

Section Upload.

Import Main.

Variable env : Env.

(** An upload with an accepted extension and more than 500 * 2^20 bytes:
    the 413 raised by the size check is caught by the handler's own
    [except Exception], which stores an error record under the job id and
    answers 500. *)
Lemma process_video_oversized (job_id : string) (file : UploadFile)
    (background_tasks : bool) (w : World) :
  endswith_any (filename file) [".mp4"; ".avi"; ".mov"; ".mkv"] = true ->
  open_raises (filename file) = false ->
  (500 * 1048576 < content_length file)%Z ->
  exists w' : World,
    process_video env job_id file background_tasks w
      = (Raise (HTTPException 500 (str_exn env too_large)), w') /\
    jobs w' !! job_id
      = Some (mkJob "error" None (str_exn env too_large) None None None).
Proof.
  intros Hext Hopen Hlen.
  unfold process_video, try_except, bind. rewrite Hext, Hopen. cbn [negb].
  unfold ret at 1. unfold write_file at 1.
  assert (Hbig : Qltb (inject_Z Config.MAX_VIDEO_SIZE_MB)
                   (inject_Z (content_length file) / (1024 * 1024)) = true).
  { apply Qltb_lt. unfold Config.MAX_VIDEO_SIZE_MB.
    apply Qlt_shift_div_l; [reflexivity |].
    change (inject_Z 500 * (1024 * 1024)) with (inject_Z (500 * 1048576)).
    rewrite <- Zlt_Qlt. lia. }
  rewrite Hbig. unfold raise at 1. unfold jobs_store, raise.
  eexists. split; [reflexivity |]. cbn. apply lookup_insert_eq.
Qed.

End Upload.

(** C4, on the code.  A 600 MB upload named [clip.mp4] is answered with
    status 500, not 413, and a job record with status ["error"] is left in
    the registry under the new job id. *)
Theorem oversized_upload_leaves_error_job (env : Main.Env) (job_id : string)
    (background_tasks : bool) (w : Main.World) :
  exists w' : Main.World,
    Main.process_video env job_id oversized_upload background_tasks w
      = (Raise (HTTPException 500 (Main.str_exn env too_large)), w') /\
    Main.jobs w' !! job_id
      = Some (Main.mkJob "error" None (Main.str_exn env too_large)
                None None None).
Proof. apply process_video_oversized; reflexivity. Qed.

(** ** The pipelines ([process_video_async], [process_url_async]) *)

Section WeakestPreconditions.

Import Main.

Lemma wp_ret {A} (a : A) (Q : Result A -> World -> Prop) (w : World) :
  Q (Ok a) w -> wp (ret a) Q w.
Proof. done. Qed.

Lemma wp_bind {A B} (m : M A) (k : A -> M B)
    (Q : Result B -> World -> Prop) (w : World) :
  wp m (fun r w' => match r with
                    | Ok a => wp (k a) Q w'
                    | Raise e => Q (Raise e) w'
                    end) w ->
  wp (bind m k) Q w.
Proof. unfold wp, bind. by destruct (m w) as [[a | e] w']. Qed.

Lemma wp_try_except {A} (body : M A) (handler : Exn -> M A)
    (Q : Result A -> World -> Prop) (w : World) :
  wp body (fun r w' => match r with
                       | Ok a => Q (Ok a) w'
                       | Raise e => wp (handler e) Q w'
                       end) w ->
  wp (try_except body handler) Q w.
Proof. unfold wp, try_except. by destruct (body w) as [[a | e] w']. Qed.

Lemma wp_mono {A} (m : M A) (Q Q' : Result A -> World -> Prop) (w : World) :
  wp m Q w -> (forall r w', Q r w' -> Q' r w') -> wp m Q' w.
Proof. unfold wp. auto. Qed.

(** A store of one key of the job record. *)
Lemma wp_jobs_setitem (job_id : string) (upd : Job -> Job) (j : Job)
    (Q : Result unit -> World -> Prop) (w : World) :
  jobs w !! job_id = Some j ->
  (forall w', jobs w' !! job_id = Some (upd j) ->
              history w' = history w ++ [Write job_id (upd j)] ->
              files w' = files w ->
              Q (Ok tt) w') ->
  wp (jobs_setitem job_id upd) Q w.
Proof.
  intros Hj HQ. unfold wp, jobs_setitem, bind, jobs_get, jobs_store.
  rewrite Hj. cbn. apply HQ; cbn; [apply lookup_insert_eq | done..].
Qed.

(** A publish: one more event, the registry untouched. *)
Lemma wp_broadcast (env : Env) (job_id : string) (message : Job)
    (Q : Result unit -> World -> Prop) (w : World) :
  (forall w', jobs w' = jobs w ->
              history w' = history w ++ [Publish job_id message] ->
              files w' = files w ->
              Q (Ok tt) w') ->
  wp (broadcast env job_id message) Q w.
Proof. intros HQ. unfold wp. rewrite broadcast_run. by apply HQ. Qed.

Lemma wp_jobs_get (job_id : string) (j : Job)
    (Q : Result Job -> World -> Prop) (w : World) :
  jobs w !! job_id = Some j -> Q (Ok j) w -> wp (jobs_get job_id) Q w.
Proof. intros Hj HQ. unfold wp, jobs_get. by rewrite Hj. Qed.

Lemma wp_update_job (env : Env) (job_id status : string) (progress : Z)
    (message : string) (j : Job)
    (Q : Result unit -> World -> Prop) (w : World) :
  jobs w !! job_id = Some j ->
  (forall w',
     jobs w' !! job_id = Some (updated status progress message j) ->
     history w' =
       history w ++
       [Write job_id (with_status status j);
        Write job_id (with_progress (Z.min progress 100)
                        (with_status status j));
        Write job_id (updated status progress message j);
        Publish job_id (updated status progress message j)] ->
     files w' = files w ->
     Q (Ok tt) w') ->
  wp (update_job env job_id status progress message) Q w.
Proof.
  intros Hj HQ. unfold update_job.
  apply wp_bind. eapply wp_jobs_setitem; [exact Hj |]. intros w1 Hj1 Hh1 Hf1.
  apply wp_bind. eapply wp_jobs_setitem; [exact Hj1 |]. intros w2 Hj2 Hh2 Hf2.
  apply wp_bind. eapply wp_jobs_setitem; [exact Hj2 |]. intros w3 Hj3 Hh3 Hf3.
  apply wp_bind. eapply wp_jobs_get; [exact Hj3 |].
  apply wp_broadcast. intros w4 Hj4 Hh4 Hf4. apply HQ.
  - by rewrite Hj4.
  - rewrite Hh4, Hh3, Hh2, Hh1. by rewrite <- !app_assoc.
  - by rewrite Hf4, Hf3, Hf2, Hf1.
Qed.

(** The [except] clause of the pipelines. *)
Lemma wp_pipeline_failed (env : Env) (job_id : string) (e : Exn) (j : Job)
    (Q : Result unit -> World -> Prop) (w : World) :
  jobs w !! job_id = Some j ->
  (forall w',
     jobs w' !! job_id
       = Some (with_message (str_exn env e) (with_status "error" j)) ->
     history w' =
       history w ++
       [Write job_id (with_status "error" j);
        Write job_id (with_message (str_exn env e) (with_status "error" j));
        Publish job_id (with_message (str_exn env e) (with_status "error" j))]
     -> Q (Ok tt) w') ->
  wp (pipeline_failed env job_id e) Q w.
Proof.
  intros Hj HQ. unfold pipeline_failed.
  apply wp_bind. eapply wp_jobs_setitem; [exact Hj |]. intros w1 Hj1 Hh1 _.
  apply wp_bind. eapply wp_jobs_setitem; [exact Hj1 |]. intros w2 Hj2 Hh2 _.
  apply wp_bind. eapply wp_jobs_get; [exact Hj2 |].
  apply wp_broadcast. intros w3 Hj3 Hh3 _. apply HQ.
  - by rewrite Hj3.
  - rewrite Hh3, Hh2, Hh1. by rewrite <- !app_assoc.
Qed.

End WeakestPreconditions.

Section Adapters.

Import Main.

Variable env : Env.

Lemma same_registry_refl (w : World) : same_registry w w.
Proof. by repeat split. Qed.

Ltac registry :=
  intros;
  unfold same_registry, bind, lift, ret, raise, write_file, path_exists,
    open_clip, set_files;
  repeat case_match; simplify_eq; cbn; by repeat split.

Lemma extract_audio_registry (video_path output_audio_path : string)
    (w : World) :
  same_registry w (extract_audio env video_path output_audio_path w).2.
Proof. unfold extract_audio. registry. Qed.

Lemma extract_subtitles_registry (audio_path : string) (w : World) :
  same_registry w (extract_subtitles env audio_path w).2.
Proof. unfold extract_subtitles. registry. Qed.

Lemma detect_highlights_registry (subtitles : list Subtitle)
    (min_duration : Z) (w : World) :
  same_registry w (detect_highlights env subtitles min_duration w).2.
Proof. unfold detect_highlights. registry. Qed.

Lemma resize_video_registry (target_resolution : Z * Z)
    (video_path output_path : string) (w : World) :
  same_registry w
    (resize_video env target_resolution video_path output_path w).2.
Proof. unfold resize_video. registry. Qed.

Lemma add_subtitles_registry (video_path srt_path output_path : string)
    (w : World) :
  same_registry w (add_subtitles env video_path srt_path output_path w).2.
Proof. unfold add_subtitles. registry. Qed.

Lemma create_highlight_video_registry (video_path : string)
    (highlights : list Highlight) (output_path : string) (w : World) :
  same_registry w
    (create_highlight_video env video_path highlights output_path w).2.
Proof. unfold create_highlight_video. registry. Qed.

Lemma download_video_registry (url output_path : string) (w : World) :
  same_registry w (download_video_from_url env url output_path w).2.
Proof. unfold download_video_from_url. registry. Qed.

Lemma write_file_registry (path : string) (f : File) (w : World) :
  same_registry w (write_file path f w).2.
Proof. registry. Qed.

(** A step that touches the file system only: whatever its outcome, the
    job record and the history are as before. *)
Lemma wp_files_only {A} (m : M A) (job_id : string) (j : Job)
    (Q : Result A -> World -> Prop) (w : World) :
  same_registry w (m w).2 ->
  jobs w !! job_id = Some j ->
  (forall r w', jobs w' !! job_id = Some j -> history w' = history w ->
                Q r w') ->
  wp m Q w.
Proof.
  intros (Hjobs & _ & _ & Hhist & _) Hj HQ. unfold wp.
  apply HQ; [by rewrite Hjobs | exact Hhist].
Qed.

End Adapters.

Section Pipelines.

Import Main.

Variable env : Env.
Variable job_id : string.

(** Closes the claim that an explicit list of events is a pipeline trace. *)
Ltac trace_ok Hp :=
  unfold pipeline_trace, updated; cbn [written published omap app];
  split; [| split; [| split; [| split]]];
  [ cbn; rewrite ?Hp;
    repeat (eexists; split; [reflexivity | split; [lia |]]); exact I
  | repeat constructor; unfold completed_at_100; cbn;
    intros; first [discriminate | reflexivity]
  | cbn;
    repeat match goal with
           | |- _ /\ _ => split
           | |- True => exact I
           | |- terminal _ -> _ =>
               let Hs := fresh "Hs" in
               intros [Hs | Hs]; cbn in Hs;
               first [discriminate Hs | split; reflexivity]
           end
  | first [by left | by right]
  | unfold completed_at_100; cbn; intros; first [discriminate | reflexivity] ].

(** The [except] clause, reached with the job record [j] after the events
    [evs] of the [try] body. *)
Ltac failed Hj Hh HQ Hp :=
  eapply wp_pipeline_failed; [exact Hj |];
  let wf := fresh "wf" in
  let Hjf := fresh "Hjf" in
  let Hhf := fresh "Hhf" in
  intros wf Hjf Hhf;
  eapply HQ;
  [ exact Hjf
  | rewrite Hhf, Hh, <- !app_assoc; cbn [app]; reflexivity
  | trace_ok Hp ].

(** One [update_job] of the [try] body. *)
Ltac update Hj Hh w' Hj' Hh' :=
  apply wp_bind; eapply wp_update_job; [exact Hj |];
  intros w' Hj' Hh' _; rewrite Hh, <- ?app_assoc in Hh'; cbn [app] in Hh'.

(** One adapter call of the [try] body, with both outcomes. *)
Ltac adapter lem Hj Hh x w' Hj' Hh' :=
  apply wp_bind; eapply wp_files_only; [apply lem | exact Hj |];
  intros [x | ?e] w' Hj' Hh'; rewrite Hh in Hh'.

Lemma wp_process_video_async (video_path filename : string)
    (start_progress p0 : Z) (j : Job)
    (Q : Result unit -> World -> Prop) (w : World) :
  jobs w !! job_id = Some j ->
  progress j = Some p0 ->
  (p0 <= start_progress + 20)%Z ->
  (start_progress <= 15)%Z ->
  (forall w' evs final,
     jobs w' !! job_id = Some final ->
     history w' = history w ++ evs ->
     pipeline_trace p0 final evs ->
     Q (Ok tt) w') ->
  wp (process_video_async env job_id video_path filename start_progress) Q w.
Proof.
  intros Hj Hp Hp0 Hsp HQ.
  assert (Hh : history w = history w ++ []) by (by rewrite app_nil_r).
  unfold process_video_async. apply wp_try_except. cbv zeta.
  update Hj Hh w1 Hj1 Hh1.
  adapter extract_audio_registry Hj1 Hh1 a w2 Hj2 Hh2;
    [| failed Hj2 Hh2 HQ Hp].
  update Hj2 Hh2 w3 Hj3 Hh3.
  adapter extract_subtitles_registry Hj3 Hh3 subtitles w4 Hj4 Hh4;
    [| failed Hj4 Hh4 HQ Hp].
  update Hj4 Hh4 w5 Hj5 Hh5.
  adapter detect_highlights_registry Hj5 Hh5 highlights w6 Hj6 Hh6;
    [| failed Hj6 Hh6 HQ Hp].
  update Hj6 Hh6 w7 Hj7 Hh7.
  adapter resize_video_registry Hj7 Hh7 r w8 Hj8 Hh8;
    [| failed Hj8 Hh8 HQ Hp].
  update Hj8 Hh8 w9 Hj9 Hh9.
  adapter write_file_registry Hj9 Hh9 u w10 Hj10 Hh10;
    [| failed Hj10 Hh10 HQ Hp].
  adapter add_subtitles_registry Hj10 Hh10 f w11 Hj11 Hh11;
    [| failed Hj11 Hh11 HQ Hp].
  update Hj11 Hh11 w12 Hj12 Hh12.
  adapter create_highlight_video_registry Hj12 Hh12 h w13 Hj13 Hh13;
    [| failed Hj13 Hh13 HQ Hp].
  update Hj13 Hh13 w14 Hj14 Hh14.
  adapter write_file_registry Hj14 Hh14 u' w15 Hj15 Hh15;
    [| failed Hj15 Hh15 HQ Hp].
  apply wp_bind. eapply wp_jobs_setitem; [exact Hj15 |]. intros w16 Hj16 Hh16 _.
  apply wp_bind. eapply wp_jobs_setitem; [exact Hj16 |]. intros w17 Hj17 Hh17 _.
  apply wp_bind. eapply wp_jobs_setitem; [exact Hj17 |]. intros w18 Hj18 Hh18 _.
  apply wp_bind. eapply wp_jobs_setitem; [exact Hj18 |]. intros w19 Hj19 Hh19 _.
  apply wp_bind. eapply wp_jobs_setitem; [exact Hj19 |]. intros w20 Hj20 Hh20 _.
  apply wp_bind. eapply wp_jobs_get; [exact Hj20 |].
  apply wp_broadcast. intros w21 Hj21 Hh21 _.
  eapply HQ.
  - rewrite Hj21. exact Hj20.
  - rewrite Hh21, Hh20, Hh19, Hh18, Hh17, Hh16, Hh15, <- !app_assoc.
    cbn [app]. reflexivity.
  - trace_ok Hp.
Qed.

Lemma wp_process_url_async (url : string) (p0 : Z) (j : Job)
    (Q : Result unit -> World -> Prop) (w : World) :
  jobs w !! job_id = Some j ->
  progress j = Some p0 ->
  (p0 <= 5)%Z ->
  (forall w' evs final,
     jobs w' !! job_id = Some final ->
     history w' = history w ++ evs ->
     pipeline_trace p0 final evs ->
     Q (Ok tt) w') ->
  wp (process_url_async env job_id url) Q w.
Proof.
  intros Hj Hp Hp0 HQ.
  assert (Hh : history w = history w ++ []) by (by rewrite app_nil_r).
  unfold process_url_async. apply wp_try_except. cbv zeta.
  update Hj Hh w1 Hj1 Hh1.
  adapter download_video_registry Hj1 Hh1 a w2 Hj2 Hh2;
    [| failed Hj2 Hh2 HQ Hp].
  update Hj2 Hh2 w3 Hj3 Hh3.
  eapply (wp_process_video_async _ _ 15 15); [exact Hj3 | reflexivity | lia.. |].
  intros w4 evs final Hj4 Hh4 (T1 & T2 & T3 & T4 & T5).
  eapply HQ; [exact Hj4 | |].
  { rewrite Hh4, Hh3, <- !app_assoc. cbn [app]. reflexivity. }
  unfold pipeline_trace, updated. split; [| split; [| split; [| split]]].
  - cbn. rewrite ?Hp.
    repeat (eexists; split; [reflexivity | split; [lia |]]). exact T1.
  - cbn. repeat (constructor;
                 [unfold completed_at_100; cbn; intros; discriminate |]).
    exact T2.
  - cbn.
    repeat match goal with
           | |- _ /\ _ => split
           | |- terminal _ -> _ =>
               let Hs := fresh "Hs" in
               intros [Hs | Hs]; cbn in Hs; discriminate Hs
           end.
    exact T3.
  - exact T4.
  - exact T5.
Qed.

(** An accepted upload leaves a fresh record with progress 0 and queues the
    pipeline. *)
Lemma process_video_accepted (file : UploadFile) (acc : Accepted)
    (w w1 : World) :
  process_video env job_id file true w = (Ok acc, w1) ->
  exists j0 video_path,
    progress j0 = Some 0%Z /\
    jobs w1 !! job_id = Some j0 /\
    history w1 = history w ++ [Write job_id j0] /\
    tasks w1 = tasks w ++ [TaskVideo job_id video_path (filename file)].
Proof.
  unfold process_video, try_except, bind.
  destruct (negb (endswith_any (filename file) _)); cbn; [discriminate |].
  destruct (open_raises (filename file)); cbn; [discriminate |].
  destruct (Qltb _ _); cbn; [discriminate |].
  intros H. inversion H; subst; clear H. cbn.
  eexists _, _. split; [| split; [apply lookup_insert_eq | split]];
    reflexivity.
Qed.

(** An accepted URL submission does the same. *)
Lemma process_video_url_accepted (url : string) (acc : Accepted)
    (w w1 : World) :
  process_video_url env job_id url true w = (Ok acc, w1) ->
  exists j0,
    progress j0 = Some 0%Z /\
    jobs w1 !! job_id = Some j0 /\
    history w1 = history w ++ [Write job_id j0] /\
    tasks w1 = tasks w ++ [TaskUrl job_id url].
Proof.
  unfold process_video_url, try_except_reraising_http, try_except, bind.
  destruct (negb (String.prefix "http://" url || String.prefix "https://" url));
    cbn; [discriminate |].
  intros H. inversion H; subst; clear H. cbn.
  eexists. split; [| split; [apply lookup_insert_eq | split]]; reflexivity.
Qed.

(** The whole life of a job: an accepted submission followed by the run of
    the task it queued.  The new events form a pipeline trace that starts
    with the creation of the record at progress 0. *)
Lemma job_lifetime (acc : Accepted) (w w1 : World) :
  (exists file, process_video env job_id file true w = (Ok acc, w1)) \/
  (exists url, process_video_url env job_id url true w = (Ok acc, w1)) ->
  exists t evs final,
    tasks w1 = tasks w ++ [t] /\
    (run_task env t w1).1 = Ok tt /\
    history (run_task env t w1).2 = history w ++ evs /\
    jobs (run_task env t w1).2 !! job_id = Some final /\
    pipeline_trace 0 final evs.
Proof.
  intros [[file H] | [url H]].
  - apply process_video_accepted in H as (j0 & vp & Hp & Hj & Hh & Ht).
    exists (TaskVideo job_id vp (filename file)).
    cbn [run_task].
    apply (wp_process_video_async vp (filename file) 0 0 j0
             (fun r w' => exists evs final,
                tasks w1 = tasks w ++ [TaskVideo job_id vp (filename file)] /\
                r = Ok tt /\ history w' = history w ++ evs /\
                jobs w' !! job_id = Some final /\
                pipeline_trace 0 final evs));
      [exact Hj | exact Hp | lia | lia |].
    intros w' evs final Hj' Hh' (T1 & T2 & T3 & T4 & T5).
    exists (Write job_id j0 :: evs), final.
    split; [exact Ht |]. split; [reflexivity |].
    split; [rewrite Hh', Hh, <- app_assoc; reflexivity |].
    split; [exact Hj' |].
    repeat split; try assumption.
    cbn. exists 0%Z. split; [exact Hp |]. split; [lia | exact T1].
  - apply process_video_url_accepted in H as (j0 & Hp & Hj & Hh & Ht).
    exists (TaskUrl job_id url).
    cbn [run_task].
    apply (wp_process_url_async url 0 j0
             (fun r w' => exists evs final,
                tasks w1 = tasks w ++ [TaskUrl job_id url] /\
                r = Ok tt /\ history w' = history w ++ evs /\
                jobs w' !! job_id = Some final /\
                pipeline_trace 0 final evs));
      [exact Hj | exact Hp | lia |].
    intros w' evs final Hj' Hh' (T1 & T2 & T3 & T4 & T5).
    exists (Write job_id j0 :: evs), final.
    split; [exact Ht |]. split; [reflexivity |].
    split; [rewrite Hh', Hh, <- app_assoc; reflexivity |].
    split; [exact Hj' |].
    repeat split; try assumption.
    cbn. exists 0%Z. split; [exact Hp |]. split; [lia | exact T1].
Qed.

End Pipelines.

Section Traces.

Import Main.


End Traces.

(** C5.  Over the life of a job (an accepted upload or URL submission,
    then the run of the pipeline it queued, whatever the outcome of each
    external step), every record stored for the job has an integer progress
    that is at most 100 and at least the progress stored before it, starting
    from 0 at creation; every published snapshot with status ["completed"],
    and the record a completed job is left with, has progress 100. *)
Theorem progress_invariant (env : Main.Env) (job_id : string)
    (acc : Main.Accepted) (w w1 : Main.World)
    (Hsubmit :
       (exists file,
          Main.process_video env job_id file true w = (Ok acc, w1)) \/
       (exists url,
          Main.process_video_url env job_id url true w = (Ok acc, w1))) :
  exists t evs final,
    Main.tasks w1 = Main.tasks w ++ [t] /\
    Main.history (Main.run_task env t w1).2 = Main.history w ++ evs /\
    Main.jobs (Main.run_task env t w1).2 !! job_id = Some final /\
    progress_never_decreases 0 (written evs) /\
    Forall completed_at_100 (published evs) /\
    completed_at_100 final.
Proof.
  destruct (job_lifetime env job_id acc w w1 Hsubmit)
    as (t & evs & final & Ht & _ & Hh & Hj & T1 & T2 & _ & _ & T5).
  exists t, evs, final. auto 10.
Qed.

Lemma progress_invariant_witness :
  exists t evs final,
    Main.tasks example_accepted_world = Main.tasks example_world ++ [t] /\
    Main.history (Main.run_task example_env t example_accepted_world).2
      = Main.history example_world ++ evs /\
    Main.jobs (Main.run_task example_env t example_accepted_world).2 !! "J"
      = Some final /\
    progress_never_decreases 0 (written evs) /\
    Forall completed_at_100 (published evs) /\
    completed_at_100 final.
Proof.
  apply (progress_invariant example_env "J" example_accepted example_world
           example_accepted_world).
  left. exists example_upload. vm_compute. reflexivity.
Defined.




(** ** Paths *)

Section Paths.







End Paths.

(** ** The empty highlight list *)

Section EmptyHighlights.

Import Main.

Variable env : Env.

Lemma wp_exact {A} (m : M A) (r : Result A) (w w' : World)
    (Q : Result A -> World -> Prop) :
  m w = (r, w') -> Q r w' -> wp m Q w.
Proof. unfold wp. by intros ->. Qed.








End EmptyHighlights.

Section EmptyHighlightsPipeline.

Import Main.

Variable env : Env.
Variable job_id : string.



End EmptyHighlightsPipeline.

Section EmptyHighlightsUpload.

Import Main.


End EmptyHighlightsUpload.



(** * Part III: further properties of the code *)

(** ** subtitle_extractor.py: SRT rendering *)

Section SrtMore.

Import SubtitleExtractor.

(** A two-digit (three-digit) field is exactly two (three) characters. *)
Lemma format_d_two (n : Z) :
  (0 <= n < 100)%Z -> exists a b, format_d 2 n = String a (String b "").
Proof.
  intros Hn.
  assert (H : forallb
                (fun k => match format_d 2 (Z.of_nat k) with
                          | String _ (String _ EmptyString) => true
                          | _ => false
                          end) (seq 0 100) = true)
    by (vm_compute; reflexivity).
  rewrite forallb_forall in H. specialize (H (Z.to_nat n)).
  rewrite Z2Nat.id in H by lia.
  destruct (format_d 2 n) as [| a [| b [| c s]]];
    try (discriminate H; apply in_seq; lia).
  eauto.
Qed.

Lemma format_d_three (n : Z) :
  (0 <= n < 1000)%Z ->
  exists a b c, format_d 3 n = String a (String b (String c "")).
Proof.
  intros Hn.
  assert (H : forallb
                (fun k => match format_d 3 (Z.of_nat k) with
                          | String _ (String _ (String _ EmptyString)) => true
                          | _ => false
                          end) (seq 0 1000) = true)
    by (vm_compute; reflexivity).
  rewrite forallb_forall in H. specialize (H (Z.to_nat n)).
  rewrite Z2Nat.id in H by lia.
  destruct (format_d 3 n) as [| a [| b [| c [| d s]]]];
    try (discriminate H; apply in_seq; lia).
  eauto.
Qed.

(** The fields [timedelta] hands to [format_time] are always in range. *)
Lemma timedelta_fields (seconds : Q) :
  let td := timedelta_of_seconds seconds in
  (0 <= td_seconds td / 3600 < 24)%Z /\
  (0 <= (td_seconds td mod 3600) / 60 < 60)%Z /\
  (0 <= td_seconds td mod 60 < 60)%Z /\
  (0 <= td_microseconds td / 1000 < 1000)%Z.
Proof.
  cbn zeta. unfold timedelta_of_seconds. cbn [td_seconds td_microseconds].
  set (us := round_half_even (seconds * 1000000)).
  pose proof (Z.mod_pos_bound (us / 1000000) 86400 ltac:(lia)) as Hs.
  pose proof (Z.mod_pos_bound us 1000000 ltac:(lia)) as Hu.
  set (s := ((us / 1000000) mod 86400)%Z) in *.
  set (u := (us mod 1000000)%Z) in *.
  pose proof (Z.mod_pos_bound s 3600 ltac:(lia)).
  pose proof (Z.mod_pos_bound s 60 ltac:(lia)).
  repeat split;
    first [ apply Z.div_pos; lia
          | apply Z.div_lt_upper_bound; lia
          | lia ].
Qed.

End SrtMore.

(** X1.  [generate_srt] renders one block per subtitle, in list order,
    numbered from 1; rendering a concatenation is rendering the first list
    and then the blocks of the second, numbered on from where the first
    stopped. *)
Theorem generate_srt_one_block_each (a b : list Subtitle) :
  SubtitleExtractor.generate_srt (a ++ b) =
  SubtitleExtractor.generate_srt a +:+
  fold_right String.append ""
    (imap (fun i s =>
             SubtitleExtractor.srt_block (1 + Z.of_nat (length a + i)) s) b).
Proof.
  unfold SubtitleExtractor.generate_srt.
  rewrite !srt_loop_blocks. cbn [String.append].
  rewrite imap_app. rewrite fold_right_app.
  set (blocks_b := imap _ b).
  assert (Hacc : forall (l : list string) (acc : string),
            fold_right String.append acc l
            = fold_right String.append "" l +:+ acc).
  { induction l as [| x l IH]; intros acc; cbn [fold_right].
    - reflexivity.
    - by rewrite IH, append_assoc. }
  rewrite Hacc. by rewrite append_assoc.
Qed.

(** X2.  Whatever number of seconds it is given (negative and beyond one
    day included), [format_time] returns exactly twelve characters, with
    [:] at positions 2 and 5 and [,] at position 8. *)
Theorem format_time_shape (seconds : Q) :
  String.length (SubtitleExtractor.format_time seconds) = 12%nat /\
  String.get 2 (SubtitleExtractor.format_time seconds) = Some ":"%char /\
  String.get 5 (SubtitleExtractor.format_time seconds) = Some ":"%char /\
  String.get 8 (SubtitleExtractor.format_time seconds) = Some ","%char.
Proof.
  destruct (timedelta_fields seconds) as (Hh & Hm & Hs & Hms).
  unfold SubtitleExtractor.format_time.
  destruct (format_d_two _ ltac:(split; [apply Hh | lia]))
    as (h1 & h2 & ->).
  destruct (format_d_two _ ltac:(split; [apply Hm | lia]))
    as (m1 & m2 & ->).
  destruct (format_d_two _ ltac:(split; [apply Hs | lia]))
    as (s1 & s2 & ->).
  destruct (format_d_three _ Hms) as (u1 & u2 & u3 & ->).
  repeat split.
Qed.

Section Rounding.

Import SubtitleExtractor.

(** A number that is an integer rounds to itself. *)
Lemma round_half_even_Z (x : Q) (z : Z) :
  x == inject_Z z -> round_half_even x = z.
Proof.
  intros Hx. unfold round_half_even.
  rewrite (Qfloor_comp _ _ Hx), Qfloor_Z.
  assert (Hr : Qltb (x - inject_Z z) (1 # 2) = true)
    by (apply Qltb_lt; lra).
  by rewrite Hr.
Qed.

Lemma Qfloor_shift (x : Q) (n : Z) :
  Qfloor (x + inject_Z n) = (Qfloor x + n)%Z.
Proof.
  pose proof (Qfloor_le x) as H1. pose proof (Qlt_floor x) as H2.
  pose proof (Qfloor_le (x + inject_Z n)) as H3.
  pose proof (Qlt_floor (x + inject_Z n)) as H4.
  rewrite inject_Z_plus in H2, H4.
  assert (Ha : inject_Z (Qfloor (x + inject_Z n))
               < inject_Z (Qfloor x + n + 1)).
  { rewrite !inject_Z_plus. lra. }
  assert (Hb : inject_Z (Qfloor x + n)
               < inject_Z (Qfloor (x + inject_Z n) + 1)).
  { rewrite !inject_Z_plus. lra. }
  rewrite <- Zlt_Qlt in Ha, Hb. lia.
Qed.

(** Shifting by an even integer shifts the rounded value. *)
Lemma round_half_even_shift (x : Q) (n : Z) :
  Z.even n = true ->
  round_half_even (x + inject_Z n) = (round_half_even x + n)%Z.
Proof.
  intros Hn. unfold round_half_even. rewrite Qfloor_shift.
  set (f := Qfloor x).
  assert (Hr : x + inject_Z n - inject_Z (f + n) == x - inject_Z f)
    by (rewrite inject_Z_plus; ring).
  assert (H1 : Qltb (x + inject_Z n - inject_Z (f + n)) (1 # 2)
               = Qltb (x - inject_Z f) (1 # 2)).
  { destruct (Qltb (x - inject_Z f) (1 # 2)) eqn:E.
    - apply Qltb_lt. apply Qltb_lt in E. lra.
    - apply Qltb_ge. apply Qltb_ge in E. lra. }
  assert (H2 : Qltb (1 # 2) (x + inject_Z n - inject_Z (f + n))
               = Qltb (1 # 2) (x - inject_Z f)).
  { destruct (Qltb (1 # 2) (x - inject_Z f)) eqn:E.
    - apply Qltb_lt. apply Qltb_lt in E. lra.
    - apply Qltb_ge. apply Qltb_ge in E. lra. }
  rewrite H1, H2, Z.even_add, Hn.
  destruct (Qltb (x - inject_Z f) (1 # 2)); [reflexivity |].
  destruct (Qltb (1 # 2) (x - inject_Z f)); [lia |].
  destruct (Z.even f); cbn; lia.
Qed.

End Rounding.

(** X3.  On a whole number [ms] of milliseconds, negative ones included
    and at most [10^12] in absolute value (up to there the float nearest to
    [ms / 1000] still determines the millisecond), [format_time(ms / 1000)]
    shows the time of day of that instant: with
    [sec = (ms // 1000) % 86400], the fields are [sec // 3600],
    [(sec % 3600) // 60], [sec % 60] and [ms % 1000], zero-padded. *)
Theorem format_time_on_milliseconds (ms : Z)
    (Hrange : (Z.abs ms <= 10 ^ 12)%Z) :
  let sec := ((ms / 1000) mod 86400)%Z in
  SubtitleExtractor.format_time (inject_Z ms / 1000) =
  SubtitleExtractor.format_d 2 (sec / 3600) +:+ ":" +:+
  SubtitleExtractor.format_d 2 ((sec mod 3600) / 60) +:+ ":" +:+
  SubtitleExtractor.format_d 2 (sec mod 60) +:+ "," +:+
  SubtitleExtractor.format_d 3 (ms mod 1000).
Proof.
  cbn zeta.
  unfold SubtitleExtractor.format_time, SubtitleExtractor.timedelta_of_seconds.
  cbn [SubtitleExtractor.td_seconds SubtitleExtractor.td_microseconds].
  rewrite (round_half_even_Z _ (ms * 1000)).
  - replace (ms * 1000 / 1000000)%Z with (ms / 1000)%Z.
    + replace ((ms * 1000) mod 1000000 / 1000)%Z with (ms mod 1000)%Z;
        [reflexivity |].
      change 1000000%Z with (1000 * 1000)%Z.
      rewrite Z.mul_mod_distr_r by lia. by rewrite Z.div_mul by lia.
    + change 1000000%Z with (1000 * 1000)%Z.
      by rewrite Z.div_mul_cancel_r by lia.
  - rewrite inject_Z_mult. change (inject_Z 1000) with 1000. field.
Qed.

Lemma format_time_on_milliseconds_witness :
  SubtitleExtractor.format_time (inject_Z 3723004 / 1000) = "01:02:03,004".
Proof.
  rewrite (format_time_on_milliseconds 3723004).
  - vm_compute. reflexivity.
  - vm_compute. discriminate.
Defined.

(** X4.  [format_time] has period one day: adding 86400 seconds to any
    input gives the same text, so no output ever shows 24 hours or more. *)
Theorem format_time_period (seconds : Q) :
  SubtitleExtractor.format_time (seconds + 86400) =
  SubtitleExtractor.format_time seconds.
Proof.
  unfold SubtitleExtractor.format_time, SubtitleExtractor.timedelta_of_seconds.
  cbn [SubtitleExtractor.td_seconds SubtitleExtractor.td_microseconds].
  assert (Hus : SubtitleExtractor.round_half_even ((seconds + 86400) * 1000000)
                = (SubtitleExtractor.round_half_even (seconds * 1000000)
                   + 86400 * 1000000)%Z).
  { rewrite <- round_half_even_shift by reflexivity.
    unfold SubtitleExtractor.round_half_even.
    assert (Heq : (seconds + 86400) * 1000000
                  == seconds * 1000000 + inject_Z (86400 * 1000000))
      by (change (inject_Z (86400 * 1000000)) with (86400 * 1000000); ring).
    rewrite (Qfloor_comp _ _ Heq).
    set (f := Qfloor (seconds * 1000000 + inject_Z (86400 * 1000000))).
    assert (H1 : Qltb ((seconds + 86400) * 1000000 - inject_Z f) (1 # 2)
                 = Qltb (seconds * 1000000 + inject_Z (86400 * 1000000)
                         - inject_Z f) (1 # 2)).
    { destruct (Qltb (seconds * 1000000 + inject_Z (86400 * 1000000)
                      - inject_Z f) (1 # 2)) eqn:E.
      - apply Qltb_lt. apply Qltb_lt in E. lra.
      - apply Qltb_ge. apply Qltb_ge in E. lra. }
    assert (H2 : Qltb (1 # 2) ((seconds + 86400) * 1000000 - inject_Z f)
                 = Qltb (1 # 2) (seconds * 1000000
                                 + inject_Z (86400 * 1000000) - inject_Z f)).
    { destruct (Qltb (1 # 2) (seconds * 1000000
                              + inject_Z (86400 * 1000000) - inject_Z f))
        eqn:E.
      - apply Qltb_lt. apply Qltb_lt in E. lra.
      - apply Qltb_ge. apply Qltb_ge in E. lra. }
    by rewrite H1, H2. }
  rewrite Hus.
  set (us := SubtitleExtractor.round_half_even (seconds * 1000000)).
  replace ((us + 86400 * 1000000) / 1000000)%Z
    with (us / 1000000 + 86400)%Z
    by (rewrite Z.div_add by lia; reflexivity).
  replace ((us / 1000000 + 86400) mod 86400)%Z
    with ((us / 1000000) mod 86400)%Z
    by (rewrite <- (Z.mod_add (us / 1000000) 1 86400) by lia; f_equal; lia).
  replace ((us + 86400 * 1000000) mod 1000000)%Z with (us mod 1000000)%Z
    by (rewrite Z.mod_add by lia; reflexivity).
  reflexivity.
Qed.

(** ** subtitle_extractor.py: re-timing *)

Section RetimeMore.

Import SubtitleExtractor.

(** The inner loop appends one re-timed copy of every overlapping subtitle,
    in transcript order, numbered on from the current id. *)
Lemma inner_loop_filter (h_start h_end offset : Q) (subs : list Subtitle) :
  forall (filtered : list Subtitle) (subtitle_id : Z),
    inner_loop h_start h_end offset subs (filtered, subtitle_id) =
    (filtered ++
       imap (fun i s =>
               retimed h_start h_end offset (subtitle_id + Z.of_nat i)%Z s)
         (List.filter (overlaps h_start h_end) subs),
     (subtitle_id
      + Z.of_nat (length (List.filter (overlaps h_start h_end) subs)))%Z).
Proof.
  induction subs as [| sub rest IH]; intros filtered subtitle_id.
  - cbn. by rewrite app_nil_r, Z.add_0_r.
  - cbn [inner_loop List.filter].
    destruct (overlaps h_start h_end sub); [| apply IH].
    cbn [fst snd]. rewrite IH. cbn [imap length].
    rewrite <- app_assoc. cbn [app].
    f_equal; [| lia].
    f_equal. rewrite Z.add_0_r. f_equal.
    apply imap_ext. intros i s _. cbn. f_equal. lia.
Qed.

Lemma ids_are_positions_snoc (l : list Subtitle) (x : Subtitle) :
  ids_are_positions l -> sub_id x = Z.of_nat (length l) ->
  ids_are_positions (l ++ [x]).
Proof.
  intros Hl Hx i s Hs.
  destruct (decide (i < length l)%nat) as [Hlt | Hge].
  - rewrite lookup_app_l in Hs by assumption. by apply Hl.
  - rewrite lookup_app_r in Hs by lia.
    destruct (i - length l)%nat as [| k] eqn:E; cbn in Hs; [| done].
    inversion Hs; subst. rewrite Hx. f_equal. lia.
Qed.

Lemma inner_loop_ids (h_start h_end offset : Q) (subs : list Subtitle) :
  forall st : list Subtitle * Z,
    st.2 = Z.of_nat (length st.1) -> ids_are_positions st.1 ->
    (inner_loop h_start h_end offset subs st).2
      = Z.of_nat (length (inner_loop h_start h_end offset subs st).1) /\
    ids_are_positions (inner_loop h_start h_end offset subs st).1.
Proof.
  induction subs as [| sub rest IH]; intros st Hid Hpos; cbn [inner_loop].
  - auto.
  - destruct (overlaps h_start h_end sub); [| by apply IH].
    apply IH; cbn [fst snd].
    + rewrite length_app. cbn. lia.
    + apply ids_are_positions_snoc; [exact Hpos | exact Hid].
Qed.

(** A well-formed output segment: it starts at or after 0 and is not
    empty. *)
Lemma retimed_well_formed (h_start h_end offset : Q) (subtitle_id : Z)
    (s : Subtitle) :
  0 <= offset -> h_start < h_end -> sub_start s < sub_end s ->
  overlaps h_start h_end s = true ->
  0 <= sub_start (retimed h_start h_end offset subtitle_id s) /\
  sub_start (retimed h_start h_end offset subtitle_id s)
    < sub_end (retimed h_start h_end offset subtitle_id s).
Proof.
  intros Hoff Hwin Hsub Hov.
  apply andb_true_iff in Hov as [H1 H2].
  apply Qltb_lt in H1. apply Qltb_lt in H2.
  unfold retimed. cbn [sub_start sub_end].
  destruct (py_max_spec 0 (sub_start s - h_start)) as [[? ->] | [? ->]];
  destruct (py_min_spec (sub_end s - h_start) (h_end - h_start))
    as [[? ->] | [? ->]]; split; lra.
Qed.

Lemma running_offset_nonneg (l : list Subtitle) :
  Forall (fun o => 0 <= sub_start o /\ sub_start o < sub_end o) l ->
  0 <= running_offset l.
Proof.
  intros Hall. unfold running_offset.
  destruct (last l) as [x |] eqn:E; [| lra].
  apply last_Some in E as [l' ->].
  apply Forall_app in Hall as [_ Hx].
  inversion Hx as [| ? ? [H1 H2] _]; subst. lra.
Qed.

Lemma inner_loop_well_formed (h_start h_end offset : Q)
    (subs : list Subtitle) :
  0 <= offset -> h_start < h_end ->
  Forall (fun s => sub_start s < sub_end s) subs ->
  forall st : list Subtitle * Z,
    Forall (fun o => 0 <= sub_start o /\ sub_start o < sub_end o) st.1 ->
    Forall (fun o => 0 <= sub_start o /\ sub_start o < sub_end o)
      (inner_loop h_start h_end offset subs st).1.
Proof.
  intros Hoff Hwin. induction subs as [| sub rest IH]; intros Hsubs st Hst.
  - exact Hst.
  - inversion Hsubs as [| ? ? Hsub Hrest]; subst. cbn [inner_loop].
    destruct (overlaps h_start h_end sub) eqn:E; [| by apply IH].
    apply IH; [exact Hrest |]. cbn [fst].
    apply Forall_app. split; [exact Hst |].
    constructor; [| constructor].
    by apply retimed_well_formed.
Qed.

End RetimeMore.

(** X5.  Whatever ids the input carries, the ids of the re-timed list are
    its sequence positions 0, 1, 2, ... *)
Theorem retime_renumbers_ids (subtitles : list Subtitle)
    (highlights : list Highlight) :
  ids_are_positions
    (SubtitleExtractor.filter_subtitles_for_highlights subtitles highlights).
Proof.
  unfold SubtitleExtractor.filter_subtitles_for_highlights.
  assert (H : forall (st : list Subtitle * Z),
            st.2 = Z.of_nat (length st.1) -> ids_are_positions st.1 ->
            ids_are_positions
              (fold_left (SubtitleExtractor.retime subtitles) highlights st).1).
  { induction highlights as [| h hs IH]; intros st Hid Hpos; cbn [fold_left].
    - exact Hpos.
    - destruct (inner_loop_ids (hl_start h) (hl_end h)
                  (SubtitleExtractor.running_offset st.1) subtitles st Hid Hpos)
        as [Hid' Hpos'].
      by apply IH. }
  apply H; [reflexivity |]. intros i s Hs. done.
Qed.

(** X6.  Each highlight window appends one re-timed copy of every subtitle
    that overlaps it, in transcript order (a subtitle overlapping several
    windows is repeated); so the output has as many entries as there are
    overlapping (window, subtitle) pairs, and it is empty for an empty
    transcript. *)
Theorem retime_appends_overlapping (subtitles : list Subtitle) :
  (forall (st : list Subtitle * Z) (h : Highlight),
     SubtitleExtractor.retime subtitles st h =
     (st.1 ++
        imap (fun i s =>
                SubtitleExtractor.retimed (hl_start h) (hl_end h)
                  (SubtitleExtractor.running_offset st.1)
                  (st.2 + Z.of_nat i)%Z s)
          (List.filter
             (SubtitleExtractor.overlaps (hl_start h) (hl_end h)) subtitles),
      (st.2 + Z.of_nat
                (length
                   (List.filter
                      (SubtitleExtractor.overlaps (hl_start h) (hl_end h))
                      subtitles)))%Z)) /\
  (forall highlights : list Highlight,
     length
       (SubtitleExtractor.filter_subtitles_for_highlights subtitles highlights)
     = sum_list_with
         (fun h =>
            length
              (List.filter
                 (SubtitleExtractor.overlaps (hl_start h) (hl_end h))
                 subtitles))
         highlights) /\
  (forall highlights : list Highlight,
     SubtitleExtractor.filter_subtitles_for_highlights [] highlights = []).
Proof.
  assert (Hstep : forall (st : list Subtitle * Z) (h : Highlight),
            SubtitleExtractor.retime subtitles st h =
            (st.1 ++
               imap (fun i s =>
                       SubtitleExtractor.retimed (hl_start h) (hl_end h)
                         (SubtitleExtractor.running_offset st.1)
                         (st.2 + Z.of_nat i)%Z s)
                 (List.filter
                    (SubtitleExtractor.overlaps (hl_start h) (hl_end h))
                    subtitles),
             (st.2 + Z.of_nat
                       (length
                          (List.filter
                             (SubtitleExtractor.overlaps
                                (hl_start h) (hl_end h)) subtitles)))%Z)).
  { intros [filtered subtitle_id] h. unfold SubtitleExtractor.retime.
    apply inner_loop_filter. }
  split; [exact Hstep |]. split.
  - intros highlights.
    unfold SubtitleExtractor.filter_subtitles_for_highlights.
    assert (H : forall st : list Subtitle * Z,
              length
                (fold_left (SubtitleExtractor.retime subtitles) highlights
                   st).1
              = (length st.1
                 + sum_list_with
                     (fun h =>
                        length
                          (List.filter
                             (SubtitleExtractor.overlaps
                                (hl_start h) (hl_end h)) subtitles))
                     highlights)%nat).
    { induction highlights as [| h hs IH]; intros st; cbn [fold_left].
      - cbn. lia.
      - rewrite IH, Hstep. cbn [fst sum_list_with].
        rewrite length_app, length_imap. lia. }
    rewrite H. reflexivity.
  - intros highlights.
    unfold SubtitleExtractor.filter_subtitles_for_highlights.
    induction highlights as [| h hs IH]; [reflexivity |].
    cbn [fold_left]. exact IH.
Qed.

(** X7.  If every subtitle of the transcript and every highlight window has
    [start < end], then every re-timed subtitle starts at or after 0 and
    does not end before it starts.  (In the exact arithmetic of this
    embedding the end is even strictly later; the float arithmetic of the
    source can round the two to the same number.) *)
Theorem retime_keeps_segments_well_formed (subtitles : list Subtitle)
    (highlights : list Highlight)
    (Hsubs : Forall (fun s => sub_start s < sub_end s) subtitles)
    (Hwin : Forall (fun h => hl_start h < hl_end h) highlights) :
  Forall (fun o => 0 <= sub_start o /\ sub_start o <= sub_end o)
    (SubtitleExtractor.filter_subtitles_for_highlights subtitles highlights).
Proof.
  unfold SubtitleExtractor.filter_subtitles_for_highlights.
  assert (H : forall st : list Subtitle * Z,
            Forall (fun o => 0 <= sub_start o /\ sub_start o < sub_end o) st.1 ->
            Forall (fun o => 0 <= sub_start o /\ sub_start o < sub_end o)
              (fold_left (SubtitleExtractor.retime subtitles) highlights st).1).
  { induction highlights as [| h hs IH]; intros st Hst; cbn [fold_left].
    - exact Hst.
    - inversion Hwin as [| ? ? Hh Hrest]; subst.
      apply IH; [exact Hrest |]. unfold SubtitleExtractor.retime.
      apply inner_loop_well_formed; try assumption.
      by apply running_offset_nonneg. }
  eapply Forall_impl; [apply H; constructor |].
  intros o [H0 Hlt]. cbn beta. split; [exact H0 | lra].
Qed.

Lemma retime_keeps_segments_well_formed_witness :
  Forall (fun o => 0 <= sub_start o /\ sub_start o <= sub_end o)
    (SubtitleExtractor.filter_subtitles_for_highlights example_subtitles
       example_windows).
Proof.
  apply (retime_keeps_segments_well_formed example_subtitles example_windows).
  - repeat constructor.
  - repeat constructor.
Defined.

(** ** video_processor.py *)

Section Binary64More.

(** Rounding to the nearest integer moves a number by at most one half. *)
Lemma round_half_even_near (y : Q) :
  y - (1 # 2) <= inject_Z (SubtitleExtractor.round_half_even y)
  /\ inject_Z (SubtitleExtractor.round_half_even y) <= y + (1 # 2).
Proof.
  unfold SubtitleExtractor.round_half_even.
  pose proof (Qfloor_le y) as Hf. pose proof (Qlt_floor y) as Hc.
  rewrite inject_Z_plus in Hc. change (inject_Z 1) with 1 in Hc.
  destruct (Qltb (y - inject_Z (Qfloor y)) (1 # 2)) eqn:E1.
  { apply Qltb_lt in E1. lra. }
  apply Qltb_ge in E1.
  destruct (Qltb (1 # 2) (y - inject_Z (Qfloor y))) eqn:E2.
  { apply Qltb_lt in E2. rewrite inject_Z_plus.
    change (inject_Z 1) with 1. lra. }
  apply Qltb_ge in E2.
  destruct (Z.even (Qfloor y)); [lra |].
  rewrite inject_Z_plus. change (inject_Z 1) with 1. lra.
Qed.

Lemma inject_pow2 (a : Z) : (0 <= a)%Z -> inject_Z (2 ^ a) == 2 ^ a.
Proof. intros Ha. by rewrite Zpower_Qpower. Qed.

(** [ilog2] is the binary exponent of a positive number. *)
Lemma ilog2_spec (x : Q) :
  0 < x -> 2 ^ ilog2 x <= x /\ x < 2 ^ (ilog2 x + 1).
Proof.
  intros Hx.
  assert (Hn : (0 < Qnum x)%Z).
  { destruct x as [n d]. unfold Qlt in Hx. cbn in *. lia. }
  assert (Hxq : x == inject_Z (Qnum x) / inject_Z (Z.pos (Qden x))).
  { destruct x as [n d]. cbn [Qnum Qden]. apply Qmake_Qdiv. }
  assert (Habs : Qabs x == x) by (apply Qabs_pos; lra).
  unfold ilog2. rewrite (Z.abs_eq (Qnum x)) by lia.
  set (n := Qnum x) in *. set (d := Z.pos (Qden x)) in *.
  assert (Hd : (0 < d)%Z) by (unfold d; lia).
  destruct (Z.log2_spec n Hn) as [Hn1 Hn2].
  destruct (Z.log2_spec d Hd) as [Hd1 Hd2].
  pose proof (Z.log2_nonneg n) as Hln. pose proof (Z.log2_nonneg d) as Hld.
  set (ln := Z.log2 n) in *. set (ld := Z.log2 d) in *.
  rewrite Zle_Qle, inject_pow2 in Hn1, Hd1 by lia.
  rewrite Zlt_Qlt, inject_pow2 in Hn2, Hd2 by lia.
  assert (HN : 0 < inject_Z n) by (rewrite <- (Zlt_Qlt 0); exact Hn).
  assert (HD : 0 < inject_Z d) by (rewrite <- (Zlt_Qlt 0); exact Hd).
  assert (Hmul : x * inject_Z d == inject_Z n)
    by (rewrite Hxq; field; lra).
  assert (Hup : x < 2 ^ (ln - ld + 1)).
  { pose proof (pow2_pos (ln - ld + 1)) as Hp.
    pose proof (pow2_pos ld) as Hpl.
    assert (Hsplit : 2 ^ (ln - ld + 1) * 2 ^ ld == 2 ^ Z.succ ln).
    { rewrite <- Qpower_plus by discriminate. f_equiv. lia. }
    destruct (Qlt_le_dec x (2 ^ (ln - ld + 1))) as [H | H]; [exact H |].
    exfalso. nra. }
  assert (Hlow : 2 ^ (ln - ld - 1) <= x).
  { pose proof (pow2_pos (ln - ld - 1)) as Hp.
    pose proof (pow2_pos (Z.succ ld)) as Hpl.
    assert (Hsplit : 2 ^ (ln - ld - 1) * 2 ^ Z.succ ld == 2 ^ ln).
    { rewrite <- Qpower_plus by discriminate. f_equiv. lia. }
    destruct (Qlt_le_dec x (2 ^ (ln - ld - 1))) as [H | H]; [| exact H].
    exfalso. nra. }
  destruct (Qle_bool (2 ^ (ln - ld)) (Qabs x)) eqn:E.
  - apply Qle_bool_iff in E. rewrite Habs in E. split; [exact E | exact Hup].
  - assert (Hlt : x < 2 ^ (ln - ld)).
    { destruct (Qlt_le_dec x (2 ^ (ln - ld))) as [H | H]; [exact H |].
      rewrite <- Habs in H. apply Qle_bool_iff in H. congruence. }
    split; [exact Hlow |].
    replace (ln - ld - 1 + 1)%Z with (ln - ld)%Z by lia. exact Hlt.
Qed.

(** In the normal range the rounding has a relative error of at most
    [2^-53]. *)
Lemma round64_near (x : Q) :
  2 ^ (-1022) <= x ->
  x * (1 - 2 ^ (-53)) <= round64 x /\ round64 x <= x * (1 + 2 ^ (-53)).
Proof.
  intros Hx.
  assert (Hpos : 0 < x) by (pose proof (pow2_pos (-1022)); lra).
  destruct (ilog2_spec x Hpos) as [Hlo Hhi].
  assert (He : (-1022 <= ilog2 x)%Z).
  { assert (H : 2 ^ (-1022) < 2 ^ (ilog2 x + 1)) by lra.
    apply Qpower_lt_compat_l_inv in H; [lia | reflexivity]. }
  unfold round64. cbv zeta.
  replace (Z.max (ilog2 x - 52) (-1074)) with (ilog2 x - 52)%Z by lia.
  set (q := (ilog2 x - 52)%Z).
  pose proof (pow2_pos q) as Hq.
  destruct (round_half_even_near (x / 2 ^ q)) as [H1 H2].
  set (m := inject_Z (SubtitleExtractor.round_half_even (x / 2 ^ q))) in *.
  assert (Hy : x / 2 ^ q * 2 ^ q == x) by (field; lra).
  assert (Hulp : 2 ^ q == 2 ^ ilog2 x * 2 ^ (-52)).
  { unfold q. rewrite <- Qpower_plus by discriminate. f_equiv. lia. }
  assert (H52 : 2 ^ (-52) * (1 # 2) == 2 ^ (-53)) by reflexivity.
  set (y := x / 2 ^ q) in *. set (p := 2 ^ q) in *.
  set (u := 2 ^ (-53)) in *. set (e := 2 ^ ilog2 x) in *.
  set (v := 2 ^ (-52)) in *.
  assert (Hv : 0 < v) by reflexivity.
  split; nra.
Qed.

End Binary64More.

Section ResizeMore.

Import VideoProcessor.

Lemma float_div_near (t a : Z) :
  (0 < a < 2 ^ 31)%Z -> (0 < t < 2 ^ 31)%Z ->
  inject_Z t / inject_Z a * (1 - 2 ^ (-53))
    <= float_div (inject_Z t) (inject_Z a)
  /\ float_div (inject_Z t) (inject_Z a)
      <= inject_Z t / inject_Z a * (1 + 2 ^ (-53)).
Proof.
  intros [Ha Ha'] [Ht Ht'].
  assert (Ht1 : 1 <= inject_Z t).
  { change 1 with (inject_Z 1). rewrite <- Zle_Qle. lia. }
  rewrite Zlt_Qlt in Ha, Ha'.
  change (inject_Z 0) with 0 in *.
  change (inject_Z (2 ^ 31)) with 2147483648 in *.
  apply round64_near.
  apply Qle_trans with (2 ^ (-31)); [by apply Qpower_le_compat_l |].
  apply Qle_shift_div_l; [exact Ha |].
  change (2 ^ (-31)) with (1 # 2147483648).
  lra.
Qed.

(** Scaling a length [a] by a factor that is at least the float quotient
    [t / a] and truncating gives at least [t - 1]. *)
Lemma scaled_covers (a t : Z) (scale : Q) :
  (0 < a < 2 ^ 31)%Z -> (0 < t < 2 ^ 31)%Z ->
  float_div (inject_Z t) (inject_Z a) <= scale ->
  (t - 1 <= py_int (float_mul (inject_Z a) scale))%Z.
Proof.
  intros Ha Ht Hscale.
  destruct (float_div_near t a Ha Ht) as [Hlo _].
  destruct Ha as [Ha Ha'], Ht as [Ht Ht'].
  assert (Ht1 : 1 <= inject_Z t).
  { change 1 with (inject_Z 1). rewrite <- Zle_Qle. lia. }
  rewrite Zlt_Qlt in Ha, Ha', Ht, Ht'.
  change (inject_Z 0) with 0 in *.
  change (inject_Z (2 ^ 31)) with 2147483648 in *.
  set (A := inject_Z a) in *. set (T := inject_Z t) in *.
  set (s := float_div T A) in *.
  assert (Hq : T / A * A == T) by (field; lra).
  set (x := T / A) in *.
  change (2 ^ (-53)) with (1 # 9007199254740992) in Hlo.
  assert (HP : T * (1 - (1 # 9007199254740992)) <= A * scale) by nra.
  destruct (round64_near (A * scale)) as [Hr _].
  { apply Qle_trans with (1 # 2); [discriminate | nra]. }
  change (2 ^ (-53)) with (1 # 9007199254740992) in Hr.
  unfold float_mul. set (r := round64 (A * scale)) in *.
  assert (Hgt : inject_Z (t - 1) <= r).
  { unfold Z.sub. rewrite inject_Z_plus, inject_Z_opp.
    change (inject_Z 1) with 1. fold T. nra. }
  unfold py_int.
  assert (Hnn : Qle_bool 0 r = true).
  { apply Qle_bool_iff. unfold Z.sub in Hgt.
    rewrite inject_Z_plus, inject_Z_opp in Hgt.
    change (inject_Z 1) with 1 in Hgt. fold T in Hgt. lra. }
  rewrite Hnn. rewrite <- (Qfloor_Z (t - 1)). by apply Qfloor_resp_le.
Qed.

(** Scaling by the float quotient itself gives at most [t]. *)
Lemma scaled_at_most (a t : Z) :
  (0 < a < 2 ^ 31)%Z -> (0 < t < 2 ^ 31)%Z ->
  (py_int (float_mul (inject_Z a) (float_div (inject_Z t) (inject_Z a)))
   <= t)%Z.
Proof.
  intros Ha Ht.
  destruct (float_div_near t a Ha Ht) as [Hlo Hhi].
  destruct Ha as [Ha Ha'], Ht as [Ht Ht'].
  assert (Ht1 : 1 <= inject_Z t).
  { change 1 with (inject_Z 1). rewrite <- Zle_Qle. lia. }
  rewrite Zlt_Qlt in Ha, Ha', Ht, Ht'.
  change (inject_Z 0) with 0 in *.
  change (inject_Z (2 ^ 31)) with 2147483648 in *.
  set (A := inject_Z a) in *. set (T := inject_Z t) in *.
  set (s := float_div T A) in *.
  assert (Hq : T / A * A == T) by (field; lra).
  set (x := T / A) in *.
  change (2 ^ (-53)) with (1 # 9007199254740992) in Hlo, Hhi.
  assert (HP1 : T * (1 - (1 # 9007199254740992)) <= A * s) by nra.
  assert (HP2 : A * s <= T * (1 + (1 # 9007199254740992))) by nra.
  destruct (round64_near (A * s)) as [Hr1 Hr2].
  { apply Qle_trans with (1 # 2); [discriminate | nra]. }
  change (2 ^ (-53)) with (1 # 9007199254740992) in Hr1, Hr2.
  unfold float_mul. set (r := round64 (A * s)) in *.
  assert (Hlt : r < T + 1) by nra.
  unfold py_int.
  assert (Hnn : Qle_bool 0 r = true) by (apply Qle_bool_iff; nra).
  rewrite Hnn.
  pose proof (Qfloor_le r) as Hf.
  assert (Hz : inject_Z (Qfloor r) < inject_Z (t + 1)).
  { rewrite inject_Z_plus. change (inject_Z 1) with 1. fold T. lra. }
  rewrite <- Zlt_Qlt in Hz. lia.
Qed.

End ResizeMore.

(** X8.  Fit by cover, up to one pixel, for any target and any input of
    positive size (each number below [2^31]): with
    [(target_h, target_w) = target_resolution], the resized frame is at
    least [target_w - 1] wide and [target_h - 1] tall (the float product
    can fall just short of the target, as for a 176 x 144 input) and is not
    larger than the target in one of the two dimensions; the crop box is
    [target_w] by [target_h], centred up to one pixel, and sticks out of
    the resized frame by at most one pixel on the left or at the top. *)
Theorem resize_covers_target_up_to_a_pixel
    (target_h target_w input_w input_h : Z)
    (Hth : (0 < target_h < 2 ^ 31)%Z) (Htw : (0 < target_w < 2 ^ 31)%Z)
    (Hw : (0 < input_w < 2 ^ 31)%Z) (Hh : (0 < input_h < 2 ^ 31)%Z) :
  exists g,
    VideoProcessor.resize_geometry (target_h, target_w) (input_w, input_h)
      = Ok g /\
    (target_w - 1 <= (VideoProcessor.g_new_size g).1)%Z /\
    (target_h - 1 <= (VideoProcessor.g_new_size g).2)%Z /\
    ((VideoProcessor.g_new_size g).1 <= target_w \/
     (VideoProcessor.g_new_size g).2 <= target_h)%Z /\
    (-1 <= VideoProcessor.g_x1 g)%Z /\
    (VideoProcessor.g_x2 g <= (VideoProcessor.g_new_size g).1)%Z /\
    (-1 <= VideoProcessor.g_y1 g)%Z /\
    (VideoProcessor.g_y2 g <= (VideoProcessor.g_new_size g).2)%Z /\
    (0 <= (VideoProcessor.g_new_size g).1 - VideoProcessor.g_x2 g
          - VideoProcessor.g_x1 g <= 1)%Z /\
    (0 <= (VideoProcessor.g_new_size g).2 - VideoProcessor.g_y2 g
          - VideoProcessor.g_y1 g <= 1)%Z /\
    VideoProcessor.crop_size g = (target_w, target_h).
Proof.
  unfold VideoProcessor.resize_geometry.
  destruct (input_w =? 0)%Z eqn:Ew; [lia |].
  destruct (input_h =? 0)%Z eqn:Eh; [lia |].
  cbn [orb]. eexists. split; [reflexivity |].
  unfold VideoProcessor.crop_size.
  cbn [VideoProcessor.g_new_size VideoProcessor.g_x1 VideoProcessor.g_x2
       VideoProcessor.g_y1 VideoProcessor.g_y2 fst snd].
  set (sw := float_div (inject_Z target_w) (inject_Z input_w)).
  set (sh := float_div (inject_Z target_h) (inject_Z input_h)).
  assert (Hnw : (target_w - 1
                 <= py_int (float_mul (inject_Z input_w) (py_max sw sh)))%Z).
  { apply scaled_covers; [assumption.. |]. fold sw.
    destruct (py_max_spec sw sh) as [[? ->] | [? ->]]; lra. }
  assert (Hnh : (target_h - 1
                 <= py_int (float_mul (inject_Z input_h) (py_max sw sh)))%Z).
  { apply scaled_covers; [assumption.. |]. fold sh.
    destruct (py_max_spec sw sh) as [[? ->] | [? ->]]; lra. }
  assert (Hone :
    (py_int (float_mul (inject_Z input_w) (py_max sw sh)) <= target_w \/
     py_int (float_mul (inject_Z input_h) (py_max sw sh)) <= target_h)%Z).
  { destruct (py_max_spec sw sh) as [[_ ->] | [_ ->]].
    - right. by apply scaled_at_most.
    - left. by apply scaled_at_most. }
  set (nw := py_int (float_mul (inject_Z input_w) (py_max sw sh))) in *.
  set (nh := py_int (float_mul (inject_Z input_h) (py_max sw sh))) in *.
  pose proof (Z.div_mod (nw - target_w) 2 ltac:(lia)).
  pose proof (Z.mod_pos_bound (nw - target_w) 2 ltac:(lia)).
  pose proof (Z.div_mod (nh - target_h) 2 ltac:(lia)).
  pose proof (Z.mod_pos_bound (nh - target_h) 2 ltac:(lia)).
  repeat split; try lia; try assumption.
  f_equal; lia.
Qed.

Lemma resize_covers_target_up_to_a_pixel_witness :
  exists g,
    VideoProcessor.resize_geometry (1080, 1920)%Z (176, 144)%Z = Ok g /\
    (1920 - 1 <= (VideoProcessor.g_new_size g).1)%Z /\
    (1080 - 1 <= (VideoProcessor.g_new_size g).2)%Z /\
    ((VideoProcessor.g_new_size g).1 <= 1920 \/
     (VideoProcessor.g_new_size g).2 <= 1080)%Z /\
    (-1 <= VideoProcessor.g_x1 g)%Z /\
    (VideoProcessor.g_x2 g <= (VideoProcessor.g_new_size g).1)%Z /\
    (-1 <= VideoProcessor.g_y1 g)%Z /\
    (VideoProcessor.g_y2 g <= (VideoProcessor.g_new_size g).2)%Z /\
    (0 <= (VideoProcessor.g_new_size g).1 - VideoProcessor.g_x2 g
          - VideoProcessor.g_x1 g <= 1)%Z /\
    (0 <= (VideoProcessor.g_new_size g).2 - VideoProcessor.g_y2 g
          - VideoProcessor.g_y1 g <= 1)%Z /\
    VideoProcessor.crop_size g = (1920, 1080)%Z.
Proof.
  apply (resize_covers_target_up_to_a_pixel 1080 1920 176 144); lia.
Defined.

(** X9.  On a video that lasts half a second or less, no candidate is ever
    kept: the list of clips is empty whatever the candidates are. *)
Theorem short_video_has_no_clip (D : Q) (highlights : list Highlight)
    (Hshort : D <= 1 # 2) :
  VideoProcessor.highlight_clips D highlights = [].
Proof.
  unfold VideoProcessor.highlight_clips. rewrite clips_loop_spec. cbn [app].
  induction highlights as [| h hs IH]; [reflexivity |].
  cbn [List.filter].
  assert (Hk : kept D h = false).
  { unfold kept, clamped. cbn [fst snd]. apply Qltb_ge.
    apply round64_le_half.
    pose proof (py_min_le_l D (hl_end h)).
    pose proof (py_max_ge_l 0 (hl_start h)). lra. }
  rewrite Hk. exact IH.
Qed.

Lemma short_video_has_no_clip_witness :
  VideoProcessor.highlight_clips (1 # 2) example_windows = [].
Proof.
  apply (short_video_has_no_clip (1 # 2) example_windows).
  vm_compute. discriminate.
Defined.

(** X10.  [create_highlight_video], on a readable video and with a working
    encoder: it always returns the output path; it writes the reel (the kept
    clips, in order, at the source's frame size) when at least one candidate
    is kept, and writes nothing at all otherwise. *)
Theorem create_highlight_video_writes_iff_kept (env : Main.Env)
    (video_path output_path : string) (highlights : list Highlight)
    (v : Video) (w : Main.World)
    (Hvideo : Main.files w !! video_path = Some (Main.MediaFile (Some v)))
    (Hwrite : Main.write_videofile env output_path = Ok tt) :
  Main.create_highlight_video env video_path highlights output_path w =
  (Ok output_path,
   if existsb (kept (duration_of (v_cuts v))) highlights
   then Main.set_files
          <[output_path :=
              Main.MediaFile
                (Some (mkVideo (v_size v)
                         (map (clamped (duration_of (v_cuts v)))
                            (List.filter (kept (duration_of (v_cuts v)))
                               highlights))))]> w
   else w).
Proof.
  unfold Main.create_highlight_video, Main.bind, Main.open_clip.
  rewrite Hvideo. cbn [VideoProcessor.clip_duration VideoProcessor.clip_size].
  unfold VideoProcessor.highlight_clips. rewrite clips_loop_spec. cbn [app].
  set (D := duration_of (v_cuts v)).
  assert (Hex : existsb (kept D) highlights
                = match List.filter (kept D) highlights with
                  | [] => false
                  | _ :: _ => true
                  end).
  { induction highlights as [| h hs IH]; [reflexivity |].
    cbn [existsb List.filter]. destruct (kept D h); [reflexivity | exact IH]. }
  rewrite Hex.
  destruct (List.filter (kept D) highlights) as [| h hs] eqn:E.
  - reflexivity.
  - cbn [map]. unfold Main.lift. rewrite Hwrite. reflexivity.
Qed.

Lemma create_highlight_video_writes_iff_kept_witness :
  Main.create_highlight_video example_env "in.mp4" example_windows "out.mp4"
    (Main.set_files
       <["in.mp4" := Main.MediaFile (Some (mkVideo (1920, 1080)%Z [(0, 10)]))]>
       example_world)
  = (Ok "out.mp4",
     Main.set_files
       <["out.mp4" :=
           Main.MediaFile
             (Some (mkVideo (1920, 1080)%Z [(2, 6); (3, 5)]))]>
       (Main.set_files
          <["in.mp4" :=
              Main.MediaFile (Some (mkVideo (1920, 1080)%Z [(0, 10)]))]>
          example_world)).
Proof.
  rewrite (create_highlight_video_writes_iff_kept example_env "in.mp4"
             "out.mp4" example_windows (mkVideo (1920, 1080)%Z [(0, 10)])).
  - vm_compute. reflexivity.
  - vm_compute. reflexivity.
  - reflexivity.
Defined.

(** ** main.py: the submission handlers *)

Section Suffixes.

Lemma rev_app_spec (s1 s2 : string) :
  String.rev_app s1 s2 = String.rev s1 +:+ s2.
Proof.
  unfold String.rev. revert s2.
  induction s1 as [| a s1 IH]; intros s2; [reflexivity |].
  cbn [String.rev_app]. rewrite IH, (IH (String a "")).
  by rewrite append_assoc.
Qed.

Lemma rev_append (a b : string) :
  String.rev (a +:+ b) = String.rev b +:+ String.rev a.
Proof.
  induction a as [| c a IH].
  - cbn. by rewrite append_nil_r.
  - change (String c a +:+ b) with (String c (a +:+ b)).
    unfold String.rev at 1 3. cbn [String.rev_app].
    rewrite !rev_app_spec, IH. by rewrite append_assoc.
Qed.

Lemma rev_involutive (s : string) : String.rev (String.rev s) = s.
Proof.
  induction s as [| c s IH]; [reflexivity |].
  unfold String.rev at 2. cbn [String.rev_app].
  rewrite rev_app_spec, rev_append, IH. reflexivity.
Qed.

Lemma prefix_append (a b : string) : String.prefix a (a +:+ b) = true.
Proof.
  induction a as [| c a IH]; [by destruct b |].
  change (String c a +:+ b) with (String c (a +:+ b)).
  cbn [String.prefix]. by destruct (ascii_dec c c).
Qed.

Lemma prefix_split (a s : string) :
  String.prefix a s = true -> exists b, s = a +:+ b.
Proof.
  revert s. induction a as [| c a IH]; intros s H.
  - by exists s.
  - destruct s as [| d s]; [discriminate |].
    cbn [String.prefix] in H. destruct (ascii_dec c d) as [-> |]; [| done].
    destruct (IH s H) as [b ->]. by exists b.
Qed.

(** [s.endswith(suffix)] holds exactly when [s] is some text followed by
    [suffix]. *)
Lemma endswith_correct (s suffix : string) :
  endswith s suffix = true <-> exists stem, s = stem +:+ suffix.
Proof.
  unfold endswith. split.
  - intros H. apply prefix_split in H as [b Hb].
    exists (String.rev b).
    rewrite <- (rev_involutive s), Hb, rev_append, rev_involutive.
    reflexivity.
  - intros [stem ->]. rewrite rev_append. apply prefix_append.
Qed.

Lemma endswith_any_video (name : string) :
  endswith_any name [".mp4"; ".avi"; ".mov"; ".mkv"] = true
  <-> has_video_extension name.
Proof.
  unfold endswith_any, has_video_extension, video_extensions.
  rewrite existsb_exists. split.
  - intros (ext & Hin & H). apply endswith_correct in H as [stem ->].
    exists stem, ext. split; [by apply list_elem_of_In | reflexivity].
  - intros (stem & ext & Hin & ->). exists ext.
    split; [by apply list_elem_of_In |].
    apply endswith_correct. by exists stem.
Qed.

End Suffixes.

Section SizeCheck.


End SizeCheck.

Section FileNames.




End FileNames.



(** X12.  An upload whose name does not end with one of the four extensions
    is refused before anything is written: the file system and the task
    queue are untouched.  The 400 raised by the check is caught by the
    handler's own [except Exception], so the answer is a 500 carrying the
    text of that 400, and an ["error"] record is stored under the new id. *)
Theorem upload_with_bad_extension (env : Main.Env) (job_id : string)
    (file : Main.UploadFile) (background_tasks : bool) (w : Main.World)
    (Hext : ~ has_video_extension (Main.filename file)) :
  exists w1,
    Main.process_video env job_id file background_tasks w
      = (Raise (HTTPException 500
                  (Main.str_exn env
                     (HTTPException 400 "Invalid video format"))), w1) /\
    Main.jobs w1 =
      <[job_id := error_record env (HTTPException 400 "Invalid video format")]>
        (Main.jobs w) /\
    Main.files w1 = Main.files w /\
    Main.tasks w1 = Main.tasks w.
Proof.
  assert (Hno : endswith_any (Main.filename file)
                  [".mp4"; ".avi"; ".mov"; ".mkv"] = false).
  { destruct (endswith_any _ _) eqn:E; [| reflexivity].
    apply endswith_any_video in E. contradiction. }
  unfold Main.process_video, Main.try_except, Main.bind.
  rewrite Hno. cbn [negb]. unfold Main.raise at 1.
  unfold Main.jobs_store, Main.raise.
  eexists. split; [reflexivity |]. cbn. auto.
Qed.

Lemma upload_with_bad_extension_witness :
  exists w1,
    Main.process_video example_env "J"
      (Main.mkUpload "notes.txt" 10 None) true example_world
      = (Raise (HTTPException 500
                  (Main.str_exn example_env
                     (HTTPException 400 "Invalid video format"))), w1) /\
    Main.jobs w1 =
      <["J" := error_record example_env
                 (HTTPException 400 "Invalid video format")]>
        (Main.jobs example_world) /\
    Main.files w1 = Main.files example_world /\
    Main.tasks w1 = Main.tasks example_world.
Proof.
  apply (upload_with_bad_extension example_env "J"
           (Main.mkUpload "notes.txt" 10 None) true example_world).
  intros H. apply endswith_any_video in H. vm_compute in H. discriminate.
Defined.





(** X14.  [process_video_url]: a URL that starts with [http://] or
    [https://] is accepted (the job is registered with progress 0 and the
    URL pipeline is queued when a task queue is given; nothing is
    downloaded yet); any other URL is refused with 400 "Invalid URL format"
    and leaves the whole state as it was: no job record is created. *)
Theorem url_submission (env : Main.Env) (job_id url : string)
    (background_tasks : bool) (w : Main.World) :
  if (String.prefix "http://" url || String.prefix "https://" url)%bool
  then
    exists w1,
      Main.process_video_url env job_id url background_tasks w
        = (Ok (Main.mkAccepted job_id "processing"
                 "Video download and processing started"), w1) /\
      Main.jobs w1 =
        <[job_id := Main.mkJob "processing" (Some 0%Z)
                      "Downloading video from URL..."
                      (Some (Main.now env)) None None]> (Main.jobs w) /\
      Main.files w1 = Main.files w /\
      Main.tasks w1 =
        Main.tasks w ++
        (if background_tasks then [Main.TaskUrl job_id url] else [])
  else
    Main.process_video_url env job_id url background_tasks w
      = (Raise (HTTPException 400 "Invalid URL format"), w).
Proof.
  unfold Main.process_video_url, Main.try_except_reraising_http,
    Main.try_except, Main.bind.
  destruct (String.prefix "http://" url || String.prefix "https://" url)%bool;
    cbn [negb].
  - unfold Main.ret at 1. unfold Main.jobs_store at 1.
    destruct background_tasks; cbn; eexists; (split; [reflexivity |]); cbn;
      rewrite ?app_nil_r; auto.
  - reflexivity.
Qed.

(** ** main.py: artifact retrieval *)

(** X15.  [download_file] never changes the state, and its answer is decided
    in this order: an unknown job id gives 404 "Job not found"; a file type
    other than [final], [highlights], [subtitles], [metadata] gives 400; a
    missing file gives 404 "File not found"; otherwise the file at
    [outputs/<job_id>/<name>] is served under its artifact name.  The job's
    status plays no part. *)
Theorem download_file_decision (job_id file_type : string) (w : Main.World) :
  (Main.download_file job_id file_type w).2 = w /\
  match (Main.download_file job_id file_type w).1 with
  | Ok r =>
      is_Some (Main.jobs w !! job_id) /\
      Main.dict_get Main.file_mapping file_type = Some (Main.fr_filename r) /\
      Main.dict_get Main.media_types file_type = Some (Main.fr_media_type r) /\
      Main.fr_path r =
        path_join (path_join Config.OUTPUT_DIR job_id) (Main.fr_filename r) /\
      is_Some (Main.files w !! Main.fr_path r)
  | Raise e =>
      (Main.jobs w !! job_id = None /\
       e = HTTPException 404 "Job not found") \/
      (is_Some (Main.jobs w !! job_id) /\
       (file_type ∉ ["final"; "highlights"; "subtitles"; "metadata"]) /\
       e = HTTPException 400 "Invalid file type") \/
      (is_Some (Main.jobs w !! job_id) /\
       (exists name,
          Main.dict_get Main.file_mapping file_type = Some name /\
          Main.files w !!
            path_join (path_join Config.OUTPUT_DIR job_id) name = None) /\
       e = HTTPException 404 "File not found")
  end.
Proof.
  assert (Hrun :
    Main.download_file job_id file_type w =
    (match Main.jobs w !! job_id with
     | None => Raise (HTTPException 404 "Job not found")
     | Some _ =>
         match Main.dict_get Main.file_mapping file_type,
               Main.dict_get Main.media_types file_type with
         | Some name, Some media_type =>
             if bool_decide
                  (is_Some
                     (Main.files w !!
                        path_join (path_join Config.OUTPUT_DIR job_id) name))
             then Ok (Main.mkFileResponse
                        (path_join (path_join Config.OUTPUT_DIR job_id) name)
                        media_type name)
             else Raise (HTTPException 404 "File not found")
         | _, _ => Raise (HTTPException 400 "Invalid file type")
         end
     end, w)).
  { unfold Main.download_file, Main.bind at 1. cbn beta iota.
    destruct (Main.jobs w !! job_id); [| reflexivity].
    destruct (Main.dict_get Main.file_mapping file_type); [| reflexivity].
    destruct (Main.dict_get Main.media_types file_type); [| reflexivity].
    cbn beta iota zeta. unfold Main.bind, Main.path_exists.
    by destruct (bool_decide _). }
  rewrite Hrun. cbn [fst snd]. split; [reflexivity |].
  destruct (Main.jobs w !! job_id) as [j |] eqn:Hj; [| left; auto].
  assert (Hkeys :
    (exists name mt,
       Main.dict_get Main.file_mapping file_type = Some name /\
       Main.dict_get Main.media_types file_type = Some mt) \/
    (Main.dict_get Main.file_mapping file_type = None /\
     (file_type ∉ ["final"; "highlights"; "subtitles"; "metadata"]))).
  { unfold Main.file_mapping, Main.media_types. cbn [Main.dict_get].
    destruct (String.eqb file_type "final") eqn:E1; [left; eauto |].
    destruct (String.eqb file_type "highlights") eqn:E2; [left; eauto |].
    destruct (String.eqb file_type "subtitles") eqn:E3; [left; eauto |].
    destruct (String.eqb file_type "metadata") eqn:E4; [left; eauto |].
    right. split; [reflexivity |].
    apply String.eqb_neq in E1, E2, E3, E4.
    intros Hin. repeat (apply elem_of_cons in Hin as [-> | Hin]; [done |]).
    by apply elem_of_nil in Hin. }
  destruct Hkeys as [(name & mt & Hn & Hm) | [Hn Hnot]].
  - rewrite Hn, Hm.
    destruct (Main.files w
                !! path_join (path_join Config.OUTPUT_DIR job_id) name)
      as [f |] eqn:Hf.
    + rewrite bool_decide_eq_true_2 by eauto.
      cbn [Main.fr_path Main.fr_filename Main.fr_media_type].
      rewrite Hf. eauto 10.
    + rewrite bool_decide_eq_false_2 by (by intros [? ?]).
      right. right. eauto 10.
  - rewrite Hn. right. left. eauto.
Qed.

(** ** main.py: the connection registry *)

Section Registry.

Import Main.

Lemma list_remove_snoc (x : WebSocket) (l : list WebSocket) :
  x ∉ l -> list_remove x (l ++ [x]) = Some l.
Proof.
  induction l as [| y l IH]; intros Hx; cbn [app list_remove].
  - by rewrite Nat.eqb_refl.
  - apply not_elem_of_cons in Hx as [Hne Hx].
    assert (E : Nat.eqb x y = false) by (by apply Nat.eqb_neq).
    rewrite E, IH by assumption. reflexivity.
Qed.



End Registry.

(** X16.  Subscribing and then unsubscribing a connection that was not
    registered for the job restores the job's list of observers; the job's
    entry itself stays in the registry (as an empty list if the job had no
    observer), and the entries of other jobs are untouched. *)
Theorem connect_then_disconnect (websocket : Main.WebSocket)
    (job_id : string) (w : Main.World)
    (Hnew : websocket ∉ observers w job_id) :
  exists w2,
    Main.disconnect job_id websocket (Main.connect websocket job_id w).2
      = (Ok tt, w2) /\
    Main.active_connections w2 !! job_id = Some (observers w job_id) /\
    (forall other, other <> job_id ->
       Main.active_connections w2 !! other
       = Main.active_connections w !! other).
Proof.
  unfold Main.connect, Main.disconnect. cbn [snd Main.active_connections].
  rewrite lookup_insert_eq.
  fold (observers w job_id).
  rewrite list_remove_snoc by exact Hnew.
  eexists. split; [reflexivity |]. cbn [Main.active_connections]. split.
  - by rewrite lookup_insert_eq.
  - intros other Hne. by rewrite !lookup_insert_ne by congruence.
Qed.

Lemma connect_then_disconnect_witness :
  exists w2,
    Main.disconnect "J" 3%nat (Main.connect 3%nat "J" example_world).2
      = (Ok tt, w2) /\
    Main.active_connections w2 !! "J" = Some (observers example_world "J") /\
    (forall other, other <> "J" ->
       Main.active_connections w2 !! other
       = Main.active_connections example_world !! other).
Proof.
  apply (connect_then_disconnect 3%nat "J" example_world).
  vm_compute. intros H.
  repeat (apply elem_of_cons in H as [H | H]; [discriminate H |]).
  by apply elem_of_nil in H.
Defined.


(** X18.  A publish that follows a subscription reaches the observers that
    were already registered first and the new one last, provided the new
    connection is open. *)
Theorem connect_then_broadcast (env : Main.Env) (websocket : Main.WebSocket)
    (job_id : string) (message : Main.Job) (w : Main.World)
    (Hopen : Main.send_fails env websocket = false) :
  Main.delivered
    (Main.broadcast env job_id message
       (Main.connect websocket job_id w).2).2
  = Main.delivered w ++ deliveries env (observers w job_id) message
      ++ [(websocket, message)].
Proof.
  rewrite broadcast_run. cbn [snd Main.delivered].
  unfold Main.connect at 1. cbn [snd Main.delivered]. f_equal.
  unfold observers at 1. unfold Main.connect.
  cbn [snd Main.active_connections]. rewrite lookup_insert_eq. cbn [default].
  fold (observers w job_id). unfold deliveries.
  unfold id. rewrite List.filter_app, map_app. cbn [List.filter].
  rewrite Hopen.
  reflexivity.
Qed.

Lemma connect_then_broadcast_witness :
  Main.delivered
    (Main.broadcast example_env "J" example_job
       (Main.connect 3%nat "J" example_world).2).2
  = Main.delivered example_world
      ++ deliveries example_env (observers example_world "J") example_job
      ++ [(3%nat, example_job)].
Proof.
  apply (connect_then_broadcast example_env 3%nat "J" example_job
           example_world).
  reflexivity.
Defined.

(** ** main.py: [update_job] *)

Section UpdateJob.

Import Main.

Lemma jobs_setitem_run (job_id : string) (upd : Job -> Job) (j : Job)
    (w : World) :
  jobs w !! job_id = Some j ->
  jobs_setitem job_id upd w =
  (Ok tt, log (Write job_id (upd j)) (set_jobs <[job_id := upd j]> w)).
Proof.
  intros Hj. unfold jobs_setitem, bind, jobs_get, jobs_store. by rewrite Hj.
Qed.

End UpdateJob.

(** X19.  [update_job] on a registered job stores the given status and
    message and the progress capped at 100, leaves the other keys, the other
    jobs and the files alone, and publishes the new record to the job's
    observers; on an unknown job id it raises [KeyError] before anything is
    stored or published. *)
Theorem update_job_cases (env : Main.Env) (job_id status : string)
    (progress : Z) (message : string) (w : Main.World) :
  match Main.jobs w !! job_id with
  | None =>
      Main.update_job env job_id status progress message w
        = (Raise (Exception "KeyError"), w)
  | Some j =>
      exists w1,
        Main.update_job env job_id status progress message w = (Ok tt, w1) /\
        Main.jobs w1 =
          <[job_id := Main.mkJob status (Some (Z.min progress 100)) message
                        (Main.created_at j) (Main.output_dir j)
                        (Main.metadata j)]> (Main.jobs w) /\
        Main.files w1 = Main.files w /\
        Main.delivered w1 =
          Main.delivered w ++
          deliveries env (observers w job_id)
            (Main.mkJob status (Some (Z.min progress 100)) message
               (Main.created_at j) (Main.output_dir j) (Main.metadata j))
  end.
Proof.
  destruct (Main.jobs w !! job_id) as [j |] eqn:Hj.
  - unfold Main.update_job, Main.bind.
    rewrite (jobs_setitem_run job_id _ j w Hj).
    erewrite jobs_setitem_run by (cbn; apply lookup_insert_eq).
    erewrite jobs_setitem_run by (cbn; apply lookup_insert_eq).
    unfold Main.jobs_get. cbn [Main.jobs Main.log Main.set_jobs].
    rewrite lookup_insert_eq. rewrite broadcast_run.
    eexists. split; [reflexivity |]. cbn.
    rewrite !insert_insert_eq. auto.
  - unfold Main.update_job, Main.bind, Main.jobs_setitem, Main.bind,
      Main.jobs_get. by rewrite Hj.
Qed.

(** ** main.py: what a pipeline run leaves behind *)

Section Frames.

Import Main.

Variable env : Env.

Ltac frame :=
  intros;
  unfold bind, lift, ret, raise, write_file, path_exists, open_clip,
    set_files;
  repeat case_match; simplify_eq; cbn;
  rewrite ?lookup_insert_ne by congruence; reflexivity.

Lemma extract_audio_frame (video_path out p : string) (w : World) :
  p <> out ->
  files (extract_audio env video_path out w).2 !! p = files w !! p.
Proof. unfold extract_audio. frame. Qed.

Lemma extract_subtitles_frame (audio_path p : string) (w : World) :
  files (extract_subtitles env audio_path w).2 !! p = files w !! p.
Proof. unfold extract_subtitles. frame. Qed.

Lemma detect_highlights_frame (subtitles : list Subtitle) (min_duration : Z)
    (p : string) (w : World) :
  files (detect_highlights env subtitles min_duration w).2 !! p
  = files w !! p.
Proof. unfold detect_highlights. frame. Qed.

Lemma resize_video_frame (target_resolution : Z * Z)
    (video_path out p : string) (w : World) :
  p <> out ->
  files (resize_video env target_resolution video_path out w).2 !! p
  = files w !! p.
Proof. unfold resize_video. frame. Qed.

Lemma add_subtitles_frame (video_path srt_path out p : string) (w : World) :
  p <> out ->
  files (add_subtitles env video_path srt_path out w).2 !! p = files w !! p.
Proof. unfold add_subtitles. frame. Qed.

Lemma create_highlight_video_frame (video_path : string)
    (highlights : list Highlight) (out p : string) (w : World) :
  p <> out ->
  files (create_highlight_video env video_path highlights out w).2 !! p
  = files w !! p.
Proof. unfold create_highlight_video. frame. Qed.

Lemma write_file_frame (out : string) (f : File) (p : string) (w : World) :
  p <> out -> files (write_file out f w).2 !! p = files w !! p.
Proof. frame. Qed.

(** A step that only writes at a path of [paths]. *)
Lemma wp_step {A} (m : M A) (job_id : string) (j : Job)
    (paths : list string) (out : string)
    (Q : Result A -> World -> Prop) (w0 w : World) :
  same_registry w (m w).2 ->
  (forall p, p <> out -> files (m w).2 !! p = files w !! p) ->
  out ∈ paths ->
  jobs w !! job_id = Some j ->
  untouched_outside paths w0 w ->
  (forall r w', jobs w' !! job_id = Some j ->
                untouched_outside paths w0 w' -> Q r w') ->
  wp m Q w.
Proof.
  intros (Hjobs & _) Hframe Hin Hj Hun HQ. unfold wp.
  apply HQ; [by rewrite Hjobs |].
  intros p Hp. rewrite Hframe; [by apply Hun |].
  intros ->. contradiction.
Qed.

(** A step that writes nothing. *)
Lemma wp_pure_step {A} (m : M A) (job_id : string) (j : Job)
    (paths : list string)
    (Q : Result A -> World -> Prop) (w0 w : World) :
  same_registry w (m w).2 ->
  (forall p, files (m w).2 !! p = files w !! p) ->
  jobs w !! job_id = Some j ->
  untouched_outside paths w0 w ->
  (forall r w', jobs w' !! job_id = Some j ->
                untouched_outside paths w0 w' -> Q r w') ->
  wp m Q w.
Proof.
  intros (Hjobs & _) Hframe Hj Hun HQ. unfold wp.
  apply HQ; [by rewrite Hjobs |].
  intros p Hp. rewrite Hframe. by apply Hun.
Qed.

Lemma untouched_same_files (paths : list string) (w0 w w' : World) :
  files w' = files w -> untouched_outside paths w0 w ->
  untouched_outside paths w0 w'.
Proof. intros Hf Hun p Hp. rewrite Hf. by apply Hun. Qed.

Lemma untouched_refl (paths : list string) (w : World) :
  untouched_outside paths w w.
Proof. by intros p _. Qed.

End Frames.

Section Outcomes.

Import Main.

Variable env : Env.
Variable job_id : string.

(** The [except] clause again, this time with what it leaves on disk. *)
Lemma wp_pipeline_failed_files (e : Exn) (j : Job)
    (Q : Result unit -> World -> Prop) (w : World) :
  jobs w !! job_id = Some j ->
  (forall w',
     jobs w' !! job_id
       = Some (with_message (str_exn env e) (with_status "error" j)) ->
     files w' = files w ->
     Q (Ok tt) w') ->
  wp (pipeline_failed env job_id e) Q w.
Proof.
  intros Hj HQ. unfold pipeline_failed.
  apply wp_bind. eapply wp_jobs_setitem; [exact Hj |]. intros w1 Hj1 _ Hf1.
  apply wp_bind. eapply wp_jobs_setitem; [exact Hj1 |]. intros w2 Hj2 _ Hf2.
  apply wp_bind. eapply wp_jobs_get; [exact Hj2 |].
  apply wp_broadcast. intros w3 Hj3 _ Hf3. apply HQ.
  - by rewrite Hj3.
  - by rewrite Hf3, Hf2, Hf1.
Qed.

Ltac in_paths :=
  unfold artifact_paths; cbn [map];
  repeat first [apply list_elem_of_here | apply list_elem_of_further].

Ltac update2 Hj Hun w' Hj' Hun' :=
  apply wp_bind; eapply wp_update_job; [exact Hj |];
  let Hf := fresh "Hf" in
  intros w' Hj' _ Hf;
  pose proof (untouched_same_files _ _ _ _ Hf Hun) as Hun'.

Ltac step2 lemR lemF Hj Hun x w' Hj' Hun' :=
  apply wp_bind;
  eapply (wp_step _ job_id _ (artifact_paths job_id));
  [ apply lemR | intros; apply lemF; eassumption | in_paths
  | exact Hj | exact Hun | ];
  intros [x | ?e] w' Hj' Hun'.

Ltac pure2 lemR lemF Hj Hun x w' Hj' Hun' :=
  apply wp_bind;
  eapply (wp_pure_step _ job_id _ (artifact_paths job_id));
  [ apply lemR | intros; apply lemF | exact Hj | exact Hun | ];
  intros [x | ?e] w' Hj' Hun'.

Ltac failed2 Hj Hun HQ Hsp :=
  eapply wp_pipeline_failed_files; [exact Hj |];
  let wf := fresh "wf" in
  let Hjf := fresh "Hjf" in
  let Hff := fresh "Hff" in
  intros wf Hjf Hff;
  eapply HQ;
  [ exact Hjf
  | right; unfold failed_record, updated; cbn;
    split; [reflexivity |]; split; [eauto |];
    split; [eexists; split; [reflexivity | lia] |]; auto
  | exact (untouched_same_files _ _ _ _ Hff Hun) ].

Lemma wp_process_video_async_outcome (video_path name : string)
    (start_progress : Z) (j : Job)
    (Q : Result unit -> World -> Prop) (w : World) :
  jobs w !! job_id = Some j ->
  (start_progress <= 15)%Z ->
  (forall w' final,
     jobs w' !! job_id = Some final ->
     completed_record job_id name j final \/ failed_record env j final ->
     untouched_outside (artifact_paths job_id) w w' ->
     Q (Ok tt) w') ->
  wp (process_video_async env job_id video_path name start_progress) Q w.
Proof.
  intros Hj Hsp HQ.
  pose proof (untouched_refl (artifact_paths job_id) w) as Hun.
  unfold process_video_async. apply wp_try_except. cbv zeta.
  update2 Hj Hun w1 Hj1 Hun1.
  step2 extract_audio_registry extract_audio_frame Hj1 Hun1 a w2 Hj2 Hun2;
    [| failed2 Hj2 Hun2 HQ Hsp].
  update2 Hj2 Hun2 w3 Hj3 Hun3.
  pure2 extract_subtitles_registry extract_subtitles_frame
    Hj3 Hun3 subtitles w4 Hj4 Hun4;
    [| failed2 Hj4 Hun4 HQ Hsp].
  update2 Hj4 Hun4 w5 Hj5 Hun5.
  pure2 detect_highlights_registry detect_highlights_frame
    Hj5 Hun5 highlights w6 Hj6 Hun6;
    [| failed2 Hj6 Hun6 HQ Hsp].
  update2 Hj6 Hun6 w7 Hj7 Hun7.
  step2 resize_video_registry resize_video_frame Hj7 Hun7 r w8 Hj8 Hun8;
    [| failed2 Hj8 Hun8 HQ Hsp].
  update2 Hj8 Hun8 w9 Hj9 Hun9.
  step2 write_file_registry write_file_frame Hj9 Hun9 u w10 Hj10 Hun10;
    [| failed2 Hj10 Hun10 HQ Hsp].
  step2 add_subtitles_registry add_subtitles_frame Hj10 Hun10 f w11 Hj11 Hun11;
    [| failed2 Hj11 Hun11 HQ Hsp].
  update2 Hj11 Hun11 w12 Hj12 Hun12.
  step2 create_highlight_video_registry create_highlight_video_frame
    Hj12 Hun12 h w13 Hj13 Hun13;
    [| failed2 Hj13 Hun13 HQ Hsp].
  update2 Hj13 Hun13 w14 Hj14 Hun14.
  step2 write_file_registry write_file_frame Hj14 Hun14 u' w15 Hj15 Hun15;
    [| failed2 Hj15 Hun15 HQ Hsp].
  apply wp_bind. eapply wp_jobs_setitem; [exact Hj15 |].
  intros w16 Hj16 _ Hf16.
  apply wp_bind. eapply wp_jobs_setitem; [exact Hj16 |].
  intros w17 Hj17 _ Hf17.
  apply wp_bind. eapply wp_jobs_setitem; [exact Hj17 |].
  intros w18 Hj18 _ Hf18.
  apply wp_bind. eapply wp_jobs_setitem; [exact Hj18 |].
  intros w19 Hj19 _ Hf19.
  apply wp_bind. eapply wp_jobs_setitem; [exact Hj19 |].
  intros w20 Hj20 _ Hf20.
  apply wp_bind. eapply wp_jobs_get; [exact Hj20 |].
  apply wp_broadcast. intros w21 Hj21 _ Hf21.
  eapply HQ.
  - rewrite Hj21. exact Hj20.
  - left. unfold completed_record, updated. cbn.
    repeat (split; [reflexivity |]). eexists. repeat split.
  - apply (untouched_same_files _ _ w15); [| exact Hun15].
    by rewrite Hf21, Hf20, Hf19, Hf18, Hf17, Hf16.
Qed.

End Outcomes.

(** ** main.py: what a pipeline run is confined to *)

Section Confinement.

Import Main.

Variable env : Env.
Variable job_id : string.
Variable paths : list string.

Lemma confined_refl (w : World) : confined_to job_id paths w w.
Proof.
  split; [done |]. split; [done |]. split; [done |]. split; [done |].
  exists []. by rewrite app_nil_r.
Qed.

Lemma confined_trans (w1 w2 w3 : World) :
  confined_to job_id paths w1 w2 -> confined_to job_id paths w2 w3 ->
  confined_to job_id paths w1 w3.
Proof.
  intros (J1 & C1 & T1 & F1 & ds1 & D1 & O1) (J2 & C2 & T2 & F2 & ds2 & D2 & O2).
  split; [intros o Ho; by rewrite J2, J1 |].
  split; [by rewrite C2, C1 |]. split; [by rewrite T2, T1 |].
  split; [intros p Hp; by rewrite F2, F1 |].
  exists (ds1 ++ ds2). split; [by rewrite D2, D1, app_assoc |].
  apply Forall_app. split; [exact O1 |].
  unfold observers in *. by rewrite <- C1.
Qed.

Lemma confined_same_registry (w w' : World) :
  same_registry w w' -> untouched_outside paths w w' ->
  confined_to job_id paths w w'.
Proof.
  intros (J & C & T & _ & D) F.
  split; [intros o _; by rewrite J |]. split; [exact C |].
  split; [exact T |]. split; [exact F |].
  exists []. by rewrite app_nil_r.
Qed.

Lemma preserves_bind {A B} (m : M A) (k : A -> M B) :
  preserves (confined_to job_id paths) m ->
  (forall a, preserves (confined_to job_id paths) (k a)) ->
  preserves (confined_to job_id paths) (bind m k).
Proof.
  intros Hm Hk w. unfold bind. specialize (Hm w).
  destruct (m w) as [[a | e] w']; cbn in *; [| exact Hm].
  eapply confined_trans; [exact Hm | apply Hk].
Qed.

Lemma preserves_try_except {A} (body : M A) (handler : Exn -> M A) :
  preserves (confined_to job_id paths) body ->
  (forall e, preserves (confined_to job_id paths) (handler e)) ->
  preserves (confined_to job_id paths) (try_except body handler).
Proof.
  intros Hm Hk w. unfold try_except. specialize (Hm w).
  destruct (body w) as [[a | e] w']; cbn in *; [exact Hm |].
  eapply confined_trans; [exact Hm | apply Hk].
Qed.

Lemma preserves_jobs_setitem (upd : Job -> Job) :
  preserves (confined_to job_id paths) (jobs_setitem job_id upd).
Proof.
  intros w. unfold jobs_setitem, bind, jobs_get, jobs_store.
  destruct (jobs w !! job_id) as [j |]; [| apply confined_refl].
  unfold log, set_jobs. cbn.
  split; [intros o Ho; cbn; by rewrite lookup_insert_ne |].
  split; [done |]. split; [done |]. split; [done |].
  exists []. by rewrite app_nil_r.
Qed.

Lemma preserves_jobs_get :
  preserves (confined_to job_id paths) (jobs_get job_id).
Proof.
  intros w. unfold jobs_get.
  destruct (jobs w !! job_id); apply confined_refl.
Qed.

Lemma deliveries_observers (connections : list WebSocket) (message : Job) :
  Forall (fun d => d.1 ∈ connections) (deliveries env connections message).
Proof.
  unfold deliveries. apply Forall_forall. intros [ws j] Hin.
  apply list_elem_of_In, in_map_iff in Hin as (c & Hc & Hin).
  apply filter_In in Hin as [Hin _]. inversion Hc; subst. cbn.
  by apply list_elem_of_In.
Qed.

Lemma preserves_broadcast (message : Job) :
  preserves (confined_to job_id paths) (broadcast env job_id message).
Proof.
  intros w. rewrite broadcast_run. cbn.
  split; [done |]. split; [done |]. split; [done |]. split; [done |].
  eexists. split; [reflexivity |]. apply deliveries_observers.
Qed.

Lemma preserves_update_job (status : string) (progress : Z) (message : string) :
  preserves (confined_to job_id paths)
    (update_job env job_id status progress message).
Proof.
  unfold update_job.
  repeat first [ apply preserves_jobs_setitem
               | apply preserves_jobs_get
               | apply preserves_broadcast
               | apply preserves_bind; [| intros ?] ].
Qed.

Lemma preserves_pipeline_failed (e : Exn) :
  preserves (confined_to job_id paths) (pipeline_failed env job_id e).
Proof.
  unfold pipeline_failed.
  repeat first [ apply preserves_jobs_setitem
               | apply preserves_jobs_get
               | apply preserves_broadcast
               | apply preserves_bind; [| intros ?] ].
Qed.

(** A step that leaves the registry alone and writes at most at [out]. *)
Lemma preserves_step {A} (m : M A) (out : string) :
  (forall w, same_registry w (m w).2) ->
  (forall w p, p <> out -> files (m w).2 !! p = files w !! p) ->
  out ∈ paths ->
  preserves (confined_to job_id paths) m.
Proof.
  intros Hr Hf Hin w. apply confined_same_registry; [apply Hr |].
  intros p Hp. apply Hf. intros ->. contradiction.
Qed.

Lemma preserves_pure_step {A} (m : M A) :
  (forall w, same_registry w (m w).2) ->
  (forall w p, files (m w).2 !! p = files w !! p) ->
  preserves (confined_to job_id paths) m.
Proof.
  intros Hr Hf w. apply confined_same_registry; [apply Hr |].
  intros p Hp. apply Hf.
Qed.

End Confinement.

Section ConfinedPipelines.

Import Main.

Variable env : Env.
Variable job_id : string.

Lemma confined_mono (paths paths' : list string) (w w' : World) :
  paths ⊆ paths' ->
  confined_to job_id paths w w' -> confined_to job_id paths' w w'.
Proof.
  intros Hsub (J & C & T & F & D).
  split; [exact J |]. split; [exact C |]. split; [exact T |].
  split; [| exact D].
  intros p Hp. apply F. intros Hin. apply Hp, Hsub, Hin.
Qed.

Ltac in_artifacts :=
  unfold artifact_paths; cbn [map];
  repeat first [apply list_elem_of_here | apply list_elem_of_further].

Ltac confine :=
  repeat first
    [ apply preserves_update_job
    | apply preserves_jobs_setitem
    | apply preserves_jobs_get
    | apply preserves_broadcast
    | apply preserves_pure_step;
        [ intros; apply extract_subtitles_registry
        | intros; apply extract_subtitles_frame ]
    | apply preserves_pure_step;
        [ intros; apply detect_highlights_registry
        | intros; apply detect_highlights_frame ]
    | eapply preserves_step;
        [ intros; apply extract_audio_registry
        | intros; by apply extract_audio_frame | in_artifacts ]
    | eapply preserves_step;
        [ intros; apply resize_video_registry
        | intros; by apply resize_video_frame | in_artifacts ]
    | eapply preserves_step;
        [ intros; apply add_subtitles_registry
        | intros; by apply add_subtitles_frame | in_artifacts ]
    | eapply preserves_step;
        [ intros; apply create_highlight_video_registry
        | intros; by apply create_highlight_video_frame | in_artifacts ]
    | eapply preserves_step;
        [ intros; apply write_file_registry
        | intros; by apply write_file_frame | in_artifacts ]
    | apply preserves_bind; [| intros ?] ].

Lemma process_video_async_confined (video_path name : string)
    (start_progress : Z) :
  preserves (confined_to job_id (artifact_paths job_id))
    (process_video_async env job_id video_path name start_progress).
Proof.
  unfold process_video_async. cbv zeta.
  apply preserves_try_except; [| intros e; apply preserves_pipeline_failed].
  confine.
Qed.

End ConfinedPipelines.

Section ConfinedUrlPipeline.

Import Main.

Variable env : Env.
Variable job_id : string.

Lemma download_video_frame (url out p : string) (w : World) :
  p <> out ->
  files (download_video_from_url env url out w).2 !! p = files w !! p.
Proof.
  intros Hp. unfold download_video_from_url, bind, lift, write_file, ret.
  destruct (yt_dlp env); cbn; [| reflexivity].
  by rewrite lookup_insert_ne.
Qed.

Lemma preserves_mono {A} (paths paths' : list string) (m : M A) :
  paths ⊆ paths' ->
  preserves (confined_to job_id paths) m ->
  preserves (confined_to job_id paths') m.
Proof. intros Hsub Hm w. eapply confined_mono; [exact Hsub | apply Hm]. Qed.

Lemma process_url_async_confined (url : string) :
  preserves
    (confined_to job_id (url_upload_path job_id :: artifact_paths job_id))
    (process_url_async env job_id url).
Proof.
  unfold process_url_async. cbv zeta.
  apply preserves_try_except; [| intros e; apply preserves_pipeline_failed].
  apply preserves_bind; [apply preserves_update_job | intros _].
  apply preserves_bind; [| intros _].
  { eapply preserves_step;
      [ intros; apply download_video_registry
      | intros; by apply download_video_frame
      | apply list_elem_of_here ]. }
  apply preserves_bind; [apply preserves_update_job | intros _].
  eapply preserves_mono; [| apply process_video_async_confined].
  intros p Hp. by apply list_elem_of_further.
Qed.

End ConfinedUrlPipeline.

(** X20.  A run of [process_video_async] on a registered job (started at
    progress 0 or 15, as the code does) never lets an exception escape,
    whatever the external tools do, and leaves the job in one of two
    records.  Completed: status ["completed"], progress 100, the success
    message, [output_dir = outputs/<job_id>] and a metadata dict for this job
    and file name whose two counts are the lengths of its two lists.
    Failed: status ["error"], the text of the exception as message, the
    progress of the last step reached (at most 95), and [output_dir] and
    [metadata] as they were before the run. *)
Theorem pipeline_ends_completed_or_failed (env : Main.Env)
    (job_id video_path name : string) (start_progress : Z) (j : Main.Job)
    (w : Main.World)
    (Hjob : Main.jobs w !! job_id = Some j)
    (Hstart : (start_progress <= 15)%Z) :
  (Main.process_video_async env job_id video_path name start_progress w).1
    = Ok tt /\
  exists final,
    Main.jobs
      (Main.process_video_async env job_id video_path name start_progress w).2
      !! job_id = Some final /\
    (completed_record job_id name j final \/ failed_record env j final).
Proof.
  apply (wp_process_video_async_outcome env job_id video_path name
           start_progress j
           (fun r w' =>
              r = Ok tt /\
              exists final,
                Main.jobs w' !! job_id = Some final /\
                (completed_record job_id name j final \/
                 failed_record env j final)) w Hjob Hstart).
  intros w' final Hfinal Hrec _. split; [reflexivity |]. by exists final.
Qed.

Lemma pipeline_ends_completed_or_failed_witness :
  (Main.process_video_async example_env "J" "uploads/J_clip.mp4" "clip.mp4" 0
     example_accepted_world).1 = Ok tt /\
  exists final,
    Main.jobs
      (Main.process_video_async example_env "J" "uploads/J_clip.mp4"
         "clip.mp4" 0 example_accepted_world).2 !! "J" = Some final /\
    (completed_record "J" "clip.mp4" (uploaded_record example_env) final \/
     failed_record example_env (uploaded_record example_env) final).
Proof.
  apply (pipeline_ends_completed_or_failed example_env "J"
           "uploads/J_clip.mp4" "clip.mp4" 0 (uploaded_record example_env)
           example_accepted_world).
  - vm_compute. reflexivity.
  - lia.
Defined.

(** X21.  Whatever its outcome, a run of [process_video_async] for a job
    changes the record of no other job, no observer list and not the task
    queue; it writes no file outside the six artifact paths under
    [outputs/<job_id>/] (so the source video is never overwritten unless it
    is one of them); and it delivers snapshots to connections registered for
    that job only. *)
Theorem pipeline_is_confined_to_its_job (env : Main.Env)
    (job_id video_path name : string) (start_progress : Z) (w : Main.World) :
  confined_to job_id (artifact_paths job_id) w
    (Main.process_video_async env job_id video_path name start_progress w).2.
Proof. apply process_video_async_confined. Qed.

(** ** main.py: the URL pipeline *)

Section UrlOutcomes.

Import Main.

Variable env : Env.
Variable job_id : string.

Lemma wp_process_url_async_outcome (url : string) (j : Job)
    (Q : Result unit -> World -> Prop) (w : World) :
  jobs w !! job_id = Some j ->
  (forall w' final,
     jobs w' !! job_id = Some final ->
     completed_record job_id "video.mp4" j final \/ failed_record env j final ->
     Q (Ok tt) w') ->
  wp (process_url_async env job_id url) Q w.
Proof.
  intros Hj HQ. unfold process_url_async. apply wp_try_except. cbv zeta.
  apply wp_bind. eapply wp_update_job; [exact Hj |]. intros w1 Hj1 _ _.
  apply wp_bind. eapply wp_files_only;
    [apply download_video_registry | exact Hj1 |].
  intros [a | e] w2 Hj2 _.
  - apply wp_bind. eapply wp_update_job; [exact Hj2 |]. intros w3 Hj3 _ _.
    eapply wp_process_video_async_outcome; [exact Hj3 | lia |].
    intros w4 final Hj4 Hfinal _. eapply HQ; [exact Hj4 |].
    destruct Hfinal as [(S & P & M & O & C & MD) | (S & M & P & O & MD & C)].
    + left. by repeat split.
    + right. by repeat split.
  - eapply wp_pipeline_failed_files; [exact Hj2 |]. intros wf Hjf _.
    eapply HQ; [exact Hjf |]. right.
    unfold failed_record, updated. cbn.
    split; [reflexivity |]. split; [eauto |].
    split; [eexists; split; [reflexivity | lia] |]. auto.
Qed.

Lemma bind_raise {A B} (m : M A) (k : A -> M B) (e : Exn) (w w' : World) :
  m w = (Raise e, w') -> bind m k w = (Raise e, w').
Proof. unfold bind. by intros ->. Qed.

Lemma try_except_raise {A} (body : M A) (handler : Exn -> M A) (e : Exn)
    (w w' : World) :
  body w = (Raise e, w') -> try_except body handler w = handler e w'.
Proof. unfold try_except. by intros ->. Qed.

Lemma jobs_setitem_missing (upd : Job -> Job) (w : World) :
  jobs w !! job_id = None ->
  jobs_setitem job_id upd w = (Raise (Exception "KeyError"), w).
Proof. intros H. unfold jobs_setitem, bind, jobs_get. by rewrite H. Qed.

Lemma update_job_missing (status : string) (progress : Z) (message : string)
    (w : World) :
  jobs w !! job_id = None ->
  update_job env job_id status progress message w
  = (Raise (Exception "KeyError"), w).
Proof.
  intros H. unfold update_job. apply bind_raise.
  by apply jobs_setitem_missing.
Qed.

Lemma pipeline_failed_missing (e : Exn) (w : World) :
  jobs w !! job_id = None ->
  pipeline_failed env job_id e w = (Raise (Exception "KeyError"), w).
Proof.
  intros H. unfold pipeline_failed. apply bind_raise.
  by apply jobs_setitem_missing.
Qed.

End UrlOutcomes.

(** X22.  A run of [process_url_async] on a registered job never lets an
    exception escape either, and leaves the same two kinds of record: the
    completed one names the file ["video.mp4"], the failed one covers a
    failed download as well as a failed processing step. *)
Theorem url_pipeline_ends_completed_or_failed (env : Main.Env)
    (job_id url : string) (j : Main.Job) (w : Main.World)
    (Hjob : Main.jobs w !! job_id = Some j) :
  (Main.process_url_async env job_id url w).1 = Ok tt /\
  exists final,
    Main.jobs (Main.process_url_async env job_id url w).2 !! job_id
      = Some final /\
    (completed_record job_id "video.mp4" j final \/
     failed_record env j final).
Proof.
  apply (wp_process_url_async_outcome env job_id url j
           (fun r w' =>
              r = Ok tt /\
              exists final,
                Main.jobs w' !! job_id = Some final /\
                (completed_record job_id "video.mp4" j final \/
                 failed_record env j final)) w Hjob).
  intros w' final Hfinal Hrec. split; [reflexivity |]. by exists final.
Qed.

Lemma url_pipeline_ends_completed_or_failed_witness :
  (Main.process_url_async example_env "J" "https://example.org/v"
     example_accepted_world).1 = Ok tt /\
  exists final,
    Main.jobs
      (Main.process_url_async example_env "J" "https://example.org/v"
         example_accepted_world).2 !! "J" = Some final /\
    (completed_record "J" "video.mp4" (uploaded_record example_env) final \/
     failed_record example_env (uploaded_record example_env) final).
Proof.
  apply (url_pipeline_ends_completed_or_failed example_env "J"
           "https://example.org/v" (uploaded_record example_env)
           example_accepted_world).
  vm_compute. reflexivity.
Defined.

(** X23.  A run of [process_url_async] is confined in the same way; the
    only path it may write besides the six artifacts is its download target
    [uploads/<job_id>_video.mp4]. *)
Theorem url_pipeline_is_confined_to_its_job (env : Main.Env)
    (job_id url : string) (w : Main.World) :
  confined_to job_id (url_upload_path job_id :: artifact_paths job_id) w
    (Main.process_url_async env job_id url w).2.
Proof. apply process_url_async_confined. Qed.

Section UrlFailure.

Import Main.

Variable env : Env.
Variable job_id : string.

Lemma download_video_fails (url out : string) (e : Exn) (w : World) :
  yt_dlp env = Raise e ->
  download_video_from_url env url out w = (Raise e, w).
Proof.
  intros H. unfold download_video_from_url, bind, lift. by rewrite H.
Qed.

End UrlFailure.

(** X24.  When the download fails, [process_url_async] raises nothing: the
    job ends with status ["error"] and the text of the download exception as
    message, at the progress 5 of the download step; exactly two snapshots
    are published (the "Downloading" one and the error one); and the
    processing pipeline is not started, so none of the job's artifacts is
    written. *)
Theorem url_download_failure (env : Main.Env) (job_id url : string)
    (j : Main.Job) (e : Exn) (w w' : Main.World) (r : Result unit)
    (Hjob : Main.jobs w !! job_id = Some j)
    (Hfail : Main.yt_dlp env = Raise e)
    (Hrun : Main.process_url_async env job_id url w = (r, w')) :
  r = Ok tt /\
  Main.jobs w' !! job_id
    = Some (Main.with_message (Main.str_exn env e)
              (Main.with_status "error"
                 (updated "processing" 5 "Downloading video from URL..." j)))
  /\
  (exists evs,
     Main.history w' = Main.history w ++ evs /\
     published evs =
       [updated "processing" 5 "Downloading video from URL..." j;
        Main.with_message (Main.str_exn env e)
          (Main.with_status "error"
             (updated "processing" 5 "Downloading video from URL..." j))]) /\
  forall p, p ∈ artifact_paths job_id ->
            Main.files w' !! p = Main.files w !! p.
Proof.
  assert (H1 :
    wp (Main.process_url_async env job_id url)
      (fun r w' =>
         r = Ok tt /\
         Main.jobs w' !! job_id
           = Some (Main.with_message (Main.str_exn env e)
                     (Main.with_status "error"
                        (updated "processing" 5
                           "Downloading video from URL..." j))) /\
         exists evs,
           Main.history w' = Main.history w ++ evs /\
           published evs =
             [updated "processing" 5 "Downloading video from URL..." j;
              Main.with_message (Main.str_exn env e)
                (Main.with_status "error"
                   (updated "processing" 5
                      "Downloading video from URL..." j))]) w).
  { unfold Main.process_url_async. apply wp_try_except. cbv zeta.
    apply wp_bind. eapply wp_update_job; [exact Hjob |].
    intros w1 Hj1 Hh1 _.
    apply wp_bind. eapply wp_exact; [by apply download_video_fails |].
    eapply wp_pipeline_failed; [exact Hj1 |]. intros w2 Hj2 Hh2.
    split; [reflexivity |]. split; [exact Hj2 |].
    eexists. split; [rewrite Hh2, Hh1, <- app_assoc; reflexivity |].
    reflexivity. }
  assert (H2 :
    wp (Main.process_url_async env job_id url)
      (fun _ w' => Main.files w' = Main.files w) w).
  { unfold Main.process_url_async. apply wp_try_except. cbv zeta.
    apply wp_bind. eapply wp_update_job; [exact Hjob |].
    intros w1 Hj1 _ Hf1.
    apply wp_bind. eapply wp_exact; [by apply download_video_fails |].
    eapply wp_pipeline_failed_files; [exact Hj1 |]. intros w2 _ Hf2.
    by rewrite Hf2. }
  unfold wp in H1, H2. rewrite Hrun in H1, H2. cbn [fst snd] in H1, H2.
  destruct H1 as (Hr & Hj & Hev).
  split; [exact Hr |]. split; [exact Hj |]. split; [exact Hev |].
  intros p _. by rewrite H2.
Qed.

Lemma url_download_failure_witness :
  Ok tt = Ok tt /\
  Main.jobs
    (Main.process_url_async failing_download_env "J" "https://example.org/v"
       example_accepted_world).2 !! "J"
    = Some (Main.with_message
              (Main.str_exn failing_download_env
                 (Exception "Failed to download video: unsupported URL"))
              (Main.with_status "error"
                 (updated "processing" 5 "Downloading video from URL..."
                    (uploaded_record example_env))))
  /\
  (exists evs,
     Main.history
       (Main.process_url_async failing_download_env "J"
          "https://example.org/v" example_accepted_world).2
     = Main.history example_accepted_world ++ evs /\
     published evs =
       [updated "processing" 5 "Downloading video from URL..."
          (uploaded_record example_env);
        Main.with_message
          (Main.str_exn failing_download_env
             (Exception "Failed to download video: unsupported URL"))
          (Main.with_status "error"
             (updated "processing" 5 "Downloading video from URL..."
                (uploaded_record example_env)))]) /\
  forall p, p ∈ artifact_paths "J" ->
            Main.files
              (Main.process_url_async failing_download_env "J"
                 "https://example.org/v" example_accepted_world).2 !! p
            = Main.files example_accepted_world !! p.
Proof.
  apply (url_download_failure failing_download_env "J"
           "https://example.org/v" (uploaded_record example_env)
           (Exception "Failed to download video: unsupported URL")
           example_accepted_world).
  - vm_compute. reflexivity.
  - reflexivity.
  - vm_compute. reflexivity.
Defined.

(** X25.  Run for a job id that has no record, both pipelines raise
    [KeyError] to their caller: the first [update_job] raises it, and the
    [except] clause raises it again when it stores the error status.  The
    state is left exactly as it was: nothing is stored, published or
    written (the output directory, which is created first, is not part of
    the model). *)
Theorem pipelines_on_unregistered_job (env : Main.Env)
    (job_id video_path name url : string) (start_progress : Z)
    (w : Main.World)
    (Hmissing : Main.jobs w !! job_id = None) :
  Main.process_video_async env job_id video_path name start_progress w
    = (Raise (Exception "KeyError"), w) /\
  Main.process_url_async env job_id url w
    = (Raise (Exception "KeyError"), w).
Proof.
  split.
  - unfold Main.process_video_async. cbv zeta.
    rewrite (try_except_raise _ _ (Exception "KeyError") w w).
    + by apply pipeline_failed_missing.
    + apply bind_raise. by apply update_job_missing.
  - unfold Main.process_url_async. cbv zeta.
    rewrite (try_except_raise _ _ (Exception "KeyError") w w).
    + by apply pipeline_failed_missing.
    + apply bind_raise. by apply update_job_missing.
Qed.

Lemma pipelines_on_unregistered_job_witness :
  Main.process_video_async example_env "J" "uploads/J_clip.mp4" "clip.mp4" 0
    example_world = (Raise (Exception "KeyError"), example_world) /\
  Main.process_url_async example_env "J" "https://example.org/v" example_world
    = (Raise (Exception "KeyError"), example_world).
Proof.
  apply (pipelines_on_unregistered_job example_env "J" "uploads/J_clip.mp4"
           "clip.mp4" "https://example.org/v" 0 example_world).
  reflexivity.
Defined.

(** ** main.py: the artifacts of a successful run *)

Section Success.

Import Main.

Variable env : Env.
Variable job_id : string.






End Success.



(** ** highlight_detector.py: the text handed to the JSON parser *)

Section JsonSlice.

Import HighlightDetector.

Lemma length_append (a b : string) :
  String.length (a +:+ b) = (String.length a + String.length b)%nat.
Proof.
  induction a as [| c a IH]; [reflexivity |].
  change (String c a +:+ b) with (String c (a +:+ b)).
  cbn [String.length]. by rewrite IH.
Qed.

Lemma find_none (c : ascii) (s : string) :
  ~ occurs c s -> find c s = (-1)%Z.
Proof.
  unfold occurs. induction s as [| a s IH]; [reflexivity |].
  cbn [find list_ascii_of_string]. intros H.
  destruct (Ascii.eqb a c) eqn:E.
  - apply Ascii.eqb_eq in E. subst. exfalso. apply H. by left.
  - rewrite IH; [reflexivity |]. intros Hin. apply H. by right.
Qed.

Lemma rfind_none (c : ascii) (s : string) :
  ~ occurs c s -> rfind c s = (-1)%Z.
Proof.
  unfold occurs. induction s as [| a s IH]; [reflexivity |].
  cbn [rfind list_ascii_of_string]. intros H.
  rewrite IH by (intros Hin; apply H; by right). cbn.
  destruct (Ascii.eqb a c) eqn:E; [| reflexivity].
  apply Ascii.eqb_eq in E. subst. exfalso. apply H. by left.
Qed.

Lemma find_first (c : ascii) (pre rest : string) :
  ~ occurs c pre ->
  find c (pre +:+ String c rest) = Z.of_nat (String.length pre).
Proof.
  unfold occurs. induction pre as [| a pre IH]; intros H.
  - change ("" +:+ String c rest) with (String c rest).
    cbn [find String.length]. by rewrite Ascii.eqb_refl.
  - change (String a pre +:+ String c rest)
      with (String a (pre +:+ String c rest)).
    cbn [find String.length list_ascii_of_string] in *.
    destruct (Ascii.eqb a c) eqn:E.
    { apply Ascii.eqb_eq in E. subst. exfalso. apply H. by left. }
    rewrite IH by (intros Hin; apply H; by right).
    destruct (Z.of_nat (String.length pre) <? 0)%Z eqn:E2; lia.
Qed.

Lemma rfind_last (c : ascii) (s post : string) :
  ~ occurs c post ->
  rfind c (s +:+ String c post) = Z.of_nat (String.length s).
Proof.
  intros H. induction s as [| a s IH].
  - change ("" +:+ String c post) with (String c post).
    cbn [rfind String.length]. rewrite (rfind_none c post H).
    change (0 <=? -1)%Z with false. cbv iota. by rewrite Ascii.eqb_refl.
  - change (String a s +:+ String c post)
      with (String a (s +:+ String c post)).
    cbn [rfind String.length]. rewrite IH.
    destruct (0 <=? Z.of_nat (String.length s))%Z eqn:E; lia.
Qed.

Lemma rfind_upper (c : ascii) (s : string) :
  (-1 <= rfind c s)%Z /\ (rfind c s <= Z.of_nat (String.length s) - 1)%Z.
Proof.
  induction s as [| a s IH]; [cbn; lia |].
  cbn [rfind String.length].
  destruct (0 <=? rfind c s)%Z eqn:E; [lia |].
  destruct (Ascii.eqb a c); lia.
Qed.

(** The last occurrence sits at the last index only when [s] ends with
    [c]. *)
Lemma rfind_at_end (c : ascii) (s : string) :
  s <> EmptyString ->
  rfind c s = (Z.of_nat (String.length s) - 1)%Z ->
  exists stem, s = stem +:+ String c EmptyString.
Proof.
  induction s as [| a s IH]; [done |]. intros _.
  cbn [rfind String.length].
  destruct (0 <=? rfind c s)%Z eqn:E.
  - intros H. destruct s as [| b s]; [cbn in E; discriminate |].
    destruct IH as [stem Hs]; [done | cbn [String.length] in *; lia |].
    exists (String a stem). by rewrite Hs.
  - apply Z.leb_gt in E. pose proof (rfind_upper c s) as Hu.
    destruct (Ascii.eqb a c) eqn:Ea.
    + intros H. destruct s as [| b s]; [| cbn [String.length] in H; lia].
      apply Ascii.eqb_eq in Ea. subst. by exists EmptyString.
    + intros H. lia.
Qed.

Lemma substring_skip (pre s : string) (m : nat) :
  substring (String.length pre) m (pre +:+ s) = substring 0 m s.
Proof.
  induction pre as [| a pre IH]; [reflexivity |].
  change (String a pre +:+ s) with (String a (pre +:+ s)).
  cbn [String.length substring]. exact IH.
Qed.

Lemma substring_take (x post : string) :
  substring 0 (String.length x) (x +:+ post) = x.
Proof.
  induction x as [| a x IH]; [by destruct post |].
  change (String a x +:+ post) with (String a (x +:+ post)).
  cbn [String.length substring]. by rewrite IH.
Qed.

Lemma substring_middle (pre x post : string) :
  substring (String.length pre) (String.length x) (pre +:+ x +:+ post) = x.
Proof. by rewrite substring_skip, substring_take. Qed.

End JsonSlice.

(** X27.  When the model's answer is some prose without an opening bracket,
    then a bracketed text, then some prose without a closing bracket, the
    text handed to the JSON parser is exactly the bracketed text, brackets
    included. *)
Theorem json_str_strips_surrounding_prose (pre mid post : string)
    (Hpre : ~ occurs "[" pre) (Hpost : ~ occurs "]" post) :
  HighlightDetector.json_str (pre +:+ "[" +:+ mid +:+ "]" +:+ post)
  = "[" +:+ mid +:+ "]".
Proof.
  unfold HighlightDetector.json_str. cbv zeta.
  change (pre +:+ "[" +:+ mid +:+ "]" +:+ post)
    with (pre +:+ String "[" (mid +:+ String "]" post)).
  rewrite (find_first "[" pre _ Hpre).
  assert (Hassoc :
    pre +:+ String "[" (mid +:+ String "]" post)
    = (pre +:+ String "[" mid) +:+ String "]" post).
  { rewrite append_assoc. reflexivity. }
  rewrite Hassoc at 2.
  rewrite (rfind_last "]" _ post Hpost).
  unfold HighlightDetector.slice. cbv zeta.
  rewrite !length_append. cbn [String.length]. rewrite !length_append.
  cbn [String.length].
  set (p := String.length pre). set (m := String.length mid).
  set (q := String.length post).
  rewrite (proj2 (Z.ltb_ge (Z.of_nat p) 0)) by lia.
  rewrite (proj2 (Z.ltb_ge (Z.of_nat (p + S m) + 1) 0)) by lia.
  rewrite !Z.min_l by lia.
  rewrite (proj2 (Z.ltb_lt (Z.of_nat p) (Z.of_nat (p + S m) + 1)%Z)) by lia.
  rewrite Nat2Z.id.
  replace (Z.to_nat (Z.of_nat (p + S m) + 1 - Z.of_nat p)%Z)
    with (String.length ("[" +:+ mid +:+ "]")).
  2:{ change ("[" +:+ mid +:+ "]") with (String "[" (mid +:+ "]")).
      cbn [String.length]. rewrite length_append. cbn [String.length].
      fold m. lia. }
  change (pre +:+ String "[" (mid +:+ String "]" post))
    with (pre +:+ String "[" (mid +:+ String "]" ("" +:+ post))).
  assert (Hshape :
    pre +:+ String "[" (mid +:+ String "]" ("" +:+ post))
    = pre +:+ ("[" +:+ mid +:+ "]") +:+ post).
  { change ("[" +:+ mid +:+ "]") with (String "[" (mid +:+ "]")).
    change (String "[" (mid +:+ "]") +:+ post)
      with (String "[" ((mid +:+ "]") +:+ post)).
    rewrite (append_assoc mid). reflexivity. }
  rewrite Hshape. apply substring_middle.
Qed.

Lemma json_str_strips_surrounding_prose_witness :
  HighlightDetector.json_str
    ("Here you go: " +:+ "[" +:+ "1, [2], 3" +:+ "]" +:+ " Enjoy!")
  = "[" +:+ "1, [2], 3" +:+ "]".
Proof.
  apply (json_str_strips_surrounding_prose "Here you go: " "1, [2], 3"
           " Enjoy!").
  - unfold occurs. cbn. intros H.
    repeat destruct H as [H | H]; try discriminate H. exact H.
  - unfold occurs. cbn. intros H.
    repeat destruct H as [H | H]; try discriminate H. exact H.
Defined.

(** X28.  When the answer contains no opening bracket at all, [find] gives
    [-1] and the slice starts at the last character: the text handed to the
    JSON parser is ["]"] if the answer ends with a closing bracket and the
    empty string otherwise; it never is the answer itself. *)
Theorem json_str_without_opening_bracket (content : string)
    (Hnone : ~ occurs "[" content) :
  HighlightDetector.json_str content
  = if endswith content "]" then "]" else "".
Proof.
  unfold HighlightDetector.json_str. cbv zeta.
  rewrite (find_none "[" content Hnone).
  unfold HighlightDetector.slice. cbv zeta.
  pose proof (rfind_upper "]" content) as [Hlo Hhi].
  set (n := String.length content) in *.
  set (i := HighlightDetector.rfind "]" content) in *.
  change (-1 <? 0)%Z with true. cbv iota.
  rewrite (proj2 (Z.ltb_ge (i + 1)%Z 0%Z)) by lia.
  rewrite (Z.min_l (i + 1)%Z) by lia.
  destruct (endswith content "]") eqn:Eend.
  - apply endswith_correct in Eend as [stem Hstem].
    assert (Hi : i = Z.of_nat (String.length stem)).
    { unfold i. rewrite Hstem. apply rfind_last. unfold occurs. cbn. tauto. }
    assert (Hn : n = S (String.length stem)).
    { unfold n. rewrite Hstem, length_append. cbn. lia. }
    rewrite Hi, Hn.
    replace (Z.max 0 (-1 + Z.of_nat (S (String.length stem))))
      with (Z.of_nat (String.length stem)) by lia.
    rewrite (proj2 (Z.ltb_lt (Z.of_nat (String.length stem))
                      (Z.of_nat (String.length stem) + 1)%Z)) by lia.
    rewrite Nat2Z.id.
    replace (Z.to_nat (Z.of_nat (String.length stem) + 1
                       - Z.of_nat (String.length stem))%Z)
      with (String.length "]") by (cbn; lia).
    rewrite Hstem.
    exact (substring_middle stem "]" "").
  - destruct (Z.max 0 (-1 + Z.of_nat n) <? i + 1)%Z eqn:E; [| reflexivity].
    exfalso. apply Z.ltb_lt in E.
    assert (Hne : content <> EmptyString).
    { intros Hc. unfold i, n in *. rewrite Hc in *. cbn in *. lia. }
    destruct (rfind_at_end "]" content Hne) as [stem Hstem];
      [fold i; fold n; lia |].
    assert (endswith content "]" = true) as Ht.
    { apply endswith_correct. by exists stem. }
    congruence.
Qed.

Lemma json_str_without_opening_bracket_witness :
  HighlightDetector.json_str "No highlights found]"
  = if endswith "No highlights found]" "]" then "]" else "".
Proof.
  apply (json_str_without_opening_bracket "No highlights found]").
  unfold occurs. cbn. intros H.
  repeat destruct H as [H | H]; try discriminate H. exact H.
Defined.
